(** * Monobase API: email-template registrar and build-constants pipeline

    A shallow embedding of

    - [registerTemplates] of [@/utils/email] and its caller
      [registerAuthTemplates] of the auth module's template loader, and
    - the build script's constants pipeline ([getGitCommit], [getGitBranch],
      [getPackageVersion], [generateBuildConstants],
      [constantsToDefineArgs]) and its bundler invocation ([buildBinary]),

    followed by the properties the specification states about them.

    The registrar is read twice.  Section [Registrar] takes the logger
    for an observer whose calls return; module [General] takes the
    repository and the logger as they come, every call of either free to
    throw.  The first is the second at the collaborators
    [ReturningLogger] (lemma [ReturningLogger_registerTemplates]). *)

From Stdlib Require Import List String Ascii NArith ZArith Bool Lia.
From Stdlib Require Import DecimalString Floats.SpecFloat.
Import ListNotations.

Set Implicit Arguments.
Set Warnings "-register-all,-notation-for-abbreviation".

(** ** JavaScript strings

    A JavaScript string is a finite sequence of UTF-16 code units. *)

Definition jsstring := list N.

Definition js (s : string) : jsstring :=
  map N_of_ascii (list_ascii_of_string s).

Definition jsstring_eq_dec : forall a b : jsstring, {a = b} + {a <> b} :=
  list_eq_dec N.eq_dec.

Definition jsstring_eqb (a b : jsstring) : bool :=
  if jsstring_eq_dec a b then true else false.

(** A thrown value.  Only its identity matters to the code below, which
    passes it on to the logger. *)
Inductive exn : Type :=
| Thrown (message : jsstring).

(** The outcome of an operation that may throw. *)
Definition result (A : Type) : Type := (exn + A)%type.

(** ** Data model of the registrar *)

(** [TemplateVariable] is declared in [email.schema]; the record carries
    the fields that [AUTH_TEMPLATES] populates. *)
Module TemplateVariable.
Record t := mk {
  id : jsstring;
  type : jsstring;
  label : jsstring;
  required : bool;
  defaultValue : option Z;
  minLength : option Z;
  maxLength : option Z
}.
End TemplateVariable.

Module TemplateMetadata.
Record t := mk {
  name : jsstring;
  description : jsstring;
  subject : jsstring;
  tags : list jsstring;
  variables : list TemplateVariable.t;
  fromName : option jsstring;
  fromEmail : option jsstring;
  replyToEmail : option jsstring;
  replyToName : option jsstring
}.
End TemplateMetadata.

Module TemplateContent.
Record t := mk {
  html : jsstring;
  text : option jsstring
}.
End TemplateContent.

Module TemplateDefinition.
Record t := mk {
  metadata : TemplateMetadata.t;
  content : TemplateContent.t
}.
End TemplateDefinition.

(** The record handed to [createTemplate]. *)
Module NewEmailTemplate.
Record t := mk {
  name : jsstring;
  description : jsstring;
  subject : jsstring;
  bodyHtml : jsstring;
  bodyText : option jsstring;
  tags : list jsstring;
  variables : list TemplateVariable.t;
  fromName : option jsstring;
  fromEmail : option jsstring;
  replyToEmail : option jsstring;
  replyToName : option jsstring;
  status : jsstring
}.
End NewEmailTemplate.

(** A stored template: the identifier the store generated, and the
    persisted fields.  The registrar reads [id], [name] and [tags] of the
    record [createTemplate] returns. *)
Module EmailTemplate.
Record t := mk {
  id : jsstring;
  fields : NewEmailTemplate.t
}.
Definition name (r : t) : jsstring := NewEmailTemplate.name (fields r).
Definition tags (r : t) : list jsstring := NewEmailTemplate.tags (fields r).
Definition status (r : t) : jsstring := NewEmailTemplate.status (fields r).
End EmailTemplate.

(** Arguments of [findMany]. *)
Record TemplateFilters := { filter_tags : list jsstring }.
Record Pagination := { limit : nat; offset : nat }.
Record QueryOptions := { pagination : Pagination }.

(** ** The template repository

    [EmailTemplateRepository] lives in [template.repo]; the registrar uses
    its constructor and two of its methods.  Each may throw and each may
    change the state of the database behind the handle, whose type [Db] is
    left to the instance. *)
Class EmailTemplateRepository (Db : Type) := {
  construct : Db -> result unit * Db;
  findMany : TemplateFilters -> QueryOptions -> Db ->
             result (list EmailTemplate.t) * Db;
  createTemplate : NewEmailTemplate.t -> Db -> result EmailTemplate.t * Db
}.

(** ** Observations

    The repository is used through a recording stub: every call is noted
    together with its outcome, and so is every entry handed to the
    optional logger. *)
Inductive Call : Type :=
| CFindMany (f : TemplateFilters) (o : QueryOptions)
            (r : result (list EmailTemplate.t))
| CCreateTemplate (t : NewEmailTemplate.t) (r : result EmailTemplate.t).

Inductive Level : Type := Debug | Error.

(** The context objects that are logged; [CtxNone] stands for a call with
    a message only. *)
Inductive LogContext : Type :=
| CtxNone
| CtxSkipped (tags : list jsstring) (name : jsstring)
| CtxRegistered (id name : jsstring) (tags : list jsstring)
| CtxFailed (error : exn) (name : jsstring) (tags : list jsstring).

Record LogEntry := { level : Level; context : LogContext; msg : jsstring }.

Inductive Logger : Type := StructuredLogger.

Record World (Db : Type) := {
  store : Db;
  calls : list Call;
  log : list LogEntry
}.

(** ** A state-and-exception monad for the asynchronous code

    [registerTemplates] awaits every repository call before it goes on, so
    one run is a sequential computation over the world. *)
Definition M (Db A : Type) : Type := World Db -> result A * World Db.

Definition ret {Db A} (a : A) : M Db A := fun w => (inr a, w).

Definition bind {Db A B} (c : M Db A) (k : A -> M Db B) : M Db B :=
  fun w => match c w with
           | (inr a, w') => k a w'
           | (inl e, w') => (inl e, w')
           end.

Definition try_catch {Db A} (body : M Db A) (handler : exn -> M Db A) : M Db A :=
  fun w => match body w with
           | (inr a, w') => (inr a, w')
           | (inl e, w') => handler e w'
           end.

Declare Scope js_scope.
Delimit Scope js_scope with js.
Notation "x <- c ;; k" := (bind c (fun x => k))
  (at level 61, c at next level, right associativity) : js_scope.
Notation "c ;; k" := (bind c (fun _ => k))
  (at level 61, right associativity) : js_scope.
Local Open Scope js_scope.

(** [for (const x of xs) body] *)
Fixpoint for_of {Db A} (xs : list A) (body : A -> M Db unit) : M Db unit :=
  match xs with
  | [] => ret tt
  | x :: rest => body x ;; for_of rest body
  end.

Definition exec {Db A} (c : M Db A) (w : World Db) : World Db := snd (c w).

(** ** The registrar with a logger that returns

    This section reads [registerTemplates] with a logger whose calls
    return and a repository that makes no use of the logger it is
    constructed with, as is the case with no logger at all.  Module
    [General] below drops both assumptions. *)
Section Registrar.
Context {Db : Type} `{Repo : EmailTemplateRepository Db}.

(** [new EmailTemplateRepository(db, logger)] *)
Definition new_EmailTemplateRepository : M Db unit :=
  fun w => let (r, s) := construct (store w) in
           (r, {| store := s; calls := calls w; log := log w |}).

(** [await templateRepo.findMany(f, o)] *)
Definition templateRepo_findMany (f : TemplateFilters) (o : QueryOptions)
  : M Db (list EmailTemplate.t) :=
  fun w => let (r, s) := findMany f o (store w) in
           (r, {| store := s;
                  calls := calls w ++ [CFindMany f o r];
                  log := log w |}).

(** [await templateRepo.createTemplate(t)] *)
Definition templateRepo_createTemplate (t : NewEmailTemplate.t)
  : M Db EmailTemplate.t :=
  fun w => let (r, s) := createTemplate t (store w) in
           (r, {| store := s;
                  calls := calls w ++ [CCreateTemplate t r];
                  log := log w |}).

(** [logger?.debug(ctx, msg)] and [logger?.error(ctx, msg)] *)
Definition logger_emit (logger : option Logger) (l : Level)
    (ctx : LogContext) (m : string) : M Db unit :=
  fun w => match logger with
           | Some _ =>
               (inr tt, {| store := store w;
                           calls := calls w;
                           log := log w ++ [{| level := l;
                                               context := ctx;
                                               msg := js m |}] |})
           | None => (inr tt, w)
           end.

Definition logger_debug (logger : option Logger) := logger_emit logger Debug.
Definition logger_error (logger : option Logger) := logger_emit logger Error.

(** The object literal [templateDef] of the loop body. *)
Definition templateDef (metadata : TemplateMetadata.t)
    (content : TemplateContent.t) : NewEmailTemplate.t :=
  {| NewEmailTemplate.name := TemplateMetadata.name metadata;
     NewEmailTemplate.description := TemplateMetadata.description metadata;
     NewEmailTemplate.subject := TemplateMetadata.subject metadata;
     NewEmailTemplate.bodyHtml := TemplateContent.html content;
     NewEmailTemplate.bodyText := TemplateContent.text content;
     NewEmailTemplate.tags := TemplateMetadata.tags metadata;
     NewEmailTemplate.variables := TemplateMetadata.variables metadata;
     NewEmailTemplate.fromName := TemplateMetadata.fromName metadata;
     NewEmailTemplate.fromEmail := TemplateMetadata.fromEmail metadata;
     NewEmailTemplate.replyToEmail := TemplateMetadata.replyToEmail metadata;
     NewEmailTemplate.replyToName := TemplateMetadata.replyToName metadata;
     NewEmailTemplate.status := js "active" |}.

Definition newTemplateOf (d : TemplateDefinition.t) : NewEmailTemplate.t :=
  templateDef (TemplateDefinition.metadata d) (TemplateDefinition.content d).

Definition existence_query (metadata : TemplateMetadata.t) : TemplateFilters :=
  {| filter_tags := TemplateMetadata.tags metadata |}.

Definition first_only : QueryOptions :=
  {| pagination := {| limit := 1; offset := 0 |} |}.

(** One iteration of the loop: the [try] block with its [continue], and
    the [catch] clause. *)
Definition register_one (logger : option Logger) (d : TemplateDefinition.t)
  : M Db unit :=
  let metadata := TemplateDefinition.metadata d in
  let content := TemplateDefinition.content d in
  try_catch
    (existing <- templateRepo_findMany (existence_query metadata) first_only ;;
     if 0 <? List.length existing then
       logger_debug logger
         (CtxSkipped (TemplateMetadata.tags metadata)
                     (TemplateMetadata.name metadata))
         "Template already exists, skipping"
     else
       created <- templateRepo_createTemplate (templateDef metadata content) ;;
       logger_debug logger
         (CtxRegistered (EmailTemplate.id created)
                        (EmailTemplate.name created)
                        (EmailTemplate.tags created))
         "Email template registered")
    (fun error =>
       logger_error logger
         (CtxFailed error (TemplateMetadata.name metadata)
                          (TemplateMetadata.tags metadata))
         "Failed to register email template").

(** The [for ... of] loop of [registerTemplates]. *)
Definition register_loop (templates : list TemplateDefinition.t)
    (logger : option Logger) : M Db unit :=
  for_of templates (register_one logger).

(** [registerTemplates(db, templates, logger)]; the database behind the
    handle [db] is the store of the world the computation runs in. *)
Definition registerTemplates (templates : list TemplateDefinition.t)
    (logger : option Logger) : M Db unit :=
  new_EmailTemplateRepository ;;
  register_loop templates logger.

End Registrar.

(** ** The auth module's templates ([loader.ts]) *)

(** The members of the [EmailTemplateTags] enumeration that the loader
    uses; their values are declared in [email.schema]. *)
Module EmailTemplateTags.
Record t := mk {
  AUTH_EMAIL_VERIFY : jsstring;
  AUTH_PASSWORD_RESET : jsstring;
  AUTH_2FA : jsstring;
  AUTH_WELCOME : jsstring
}.
End EmailTemplateTags.

(** The Handlebars sources that the bundler imports as text. *)
Record TemplateSources := {
  emailVerifyHtml : jsstring;
  emailVerifyText : jsstring;
  passwordResetHtml : jsstring;
  passwordResetText : jsstring;
  twoFactorHtml : jsstring;
  twoFactorText : jsstring;
  welcomeHtml : jsstring;
  welcomeText : jsstring
}.

(** A variable with [required: true], as all of them are. *)
Definition required_variable (id type label : string)
    (defaultValue minLength maxLength : option Z) : TemplateVariable.t :=
  {| TemplateVariable.id := js id;
     TemplateVariable.type := js type;
     TemplateVariable.label := js label;
     TemplateVariable.required := true;
     TemplateVariable.defaultValue := defaultValue;
     TemplateVariable.minLength := minLength;
     TemplateVariable.maxLength := maxLength |}.

Definition auth_template (name description subject : string)
    (tag : jsstring) (variables : list TemplateVariable.t)
    (html text : jsstring) : TemplateDefinition.t :=
  {| TemplateDefinition.metadata :=
       {| TemplateMetadata.name := js name;
          TemplateMetadata.description := js description;
          TemplateMetadata.subject := js subject;
          TemplateMetadata.tags := [tag];
          TemplateMetadata.variables := variables;
          TemplateMetadata.fromName := None;
          TemplateMetadata.fromEmail := None;
          TemplateMetadata.replyToEmail := None;
          TemplateMetadata.replyToName := None |};
     TemplateDefinition.content :=
       {| TemplateContent.html := html;
          TemplateContent.text := Some text |} |}.

Definition AUTH_TEMPLATES (tags : EmailTemplateTags.t) (src : TemplateSources)
  : list TemplateDefinition.t :=
  [ auth_template "Email Verification"
      "Email verification template for new user registration"
      "Verify your email address"
      (EmailTemplateTags.AUTH_EMAIL_VERIFY tags)
      [ required_variable "name" "string" "Recipient Name" None None None;
        required_variable "email" "email" "Email Address" None None None;
        required_variable "verificationLink" "url" "Verification Link"
          None None None ]
      (emailVerifyHtml src) (emailVerifyText src);
    auth_template "Password Reset"
      "Password reset template for forgot password flow"
      "Reset your password"
      (EmailTemplateTags.AUTH_PASSWORD_RESET tags)
      [ required_variable "name" "string" "Recipient Name" None None None;
        required_variable "email" "email" "Email Address" None None None;
        required_variable "resetLink" "url" "Password Reset Link"
          None None None;
        required_variable "expirationTime" "number"
          "Link Expiration Time (minutes)" (Some 15%Z) None None ]
      (passwordResetHtml src) (passwordResetText src);
    auth_template "Two-Factor Authentication"
      "2FA verification code template"
      "Your verification code"
      (EmailTemplateTags.AUTH_2FA tags)
      [ required_variable "name" "string" "Recipient Name" None None None;
        required_variable "email" "email" "Email Address" None None None;
        required_variable "code" "string" "Verification Code"
          None (Some 4%Z) (Some 8%Z);
        required_variable "expirationTime" "number"
          "Code Expiration Time (minutes)" (Some 5%Z) None None ]
      (twoFactorHtml src) (twoFactorText src);
    auth_template "Welcome Email"
      "Welcome email for new users after successful registration"
      "Welcome to Monobase!"
      (EmailTemplateTags.AUTH_WELCOME tags)
      [ required_variable "name" "string" "Recipient Name" None None None;
        required_variable "email" "email" "Email Address" None None None;
        required_variable "dashboardLink" "url" "Dashboard Link"
          None None None ]
      (welcomeHtml src) (welcomeText src) ].

Section AuthTemplates.
Context {Db : Type} `{Repo : EmailTemplateRepository Db}.

Definition registerAuthTemplates (tags : EmailTemplateTags.t)
    (src : TemplateSources) (logger : option Logger) : M Db unit :=
  logger_debug logger CtxNone "Registering auth module email templates" ;;
  registerTemplates (AUTH_TEMPLATES tags src) logger ;;
  logger_debug logger CtxNone "Auth module email templates registered".

End AuthTemplates.

(** ** The registrar with collaborators of any behaviour

    The source hands the logger it was given to the repository it
    constructs, and calls it inside the [try] block as well as inside the
    [catch] clause, where nothing guards the call.  Here the repository
    and the logger are taken together: all that is known of them is the
    state [E] behind them, which every call may change, and the outcome
    of every call, which may be an exception. *)
Module General.

Class Collaborators (E : Type) := {
  construct : option Logger -> E -> result unit * E;
  findMany : TemplateFilters -> QueryOptions -> E ->
             result (list EmailTemplate.t) * E;
  createTemplate : NewEmailTemplate.t -> E -> result EmailTemplate.t * E;
  logger_call : Level -> LogContext -> jsstring -> E -> result unit * E
}.

Section Registrar.
Context {E : Type} `{C : Collaborators E}.

(** [new EmailTemplateRepository(db, logger)] *)
Definition new_EmailTemplateRepository (logger : option Logger) : M E unit :=
  fun w => let (r, s) := construct logger (store w) in
           (r, {| store := s; calls := calls w; log := log w |}).

(** [await templateRepo.findMany(f, o)] *)
Definition templateRepo_findMany (f : TemplateFilters) (o : QueryOptions)
  : M E (list EmailTemplate.t) :=
  fun w => let (r, s) := findMany f o (store w) in
           (r, {| store := s;
                  calls := calls w ++ [CFindMany f o r];
                  log := log w |}).

(** [await templateRepo.createTemplate(t)] *)
Definition templateRepo_createTemplate (t : NewEmailTemplate.t)
  : M E EmailTemplate.t :=
  fun w => let (r, s) := createTemplate t (store w) in
           (r, {| store := s;
                  calls := calls w ++ [CCreateTemplate t r];
                  log := log w |}).

(** [logger?.debug(ctx, msg)] and [logger?.error(ctx, msg)]: the entry is
    handed over, and the call returns or throws. *)
Definition logger_emit (logger : option Logger) (l : Level)
    (ctx : LogContext) (m : string) : M E unit :=
  fun w => match logger with
           | Some _ =>
               let (r, s) := logger_call l ctx (js m) (store w) in
               (r, {| store := s;
                      calls := calls w;
                      log := log w ++ [{| level := l;
                                          context := ctx;
                                          msg := js m |}] |})
           | None => (inr tt, w)
           end.

Definition logger_debug (logger : option Logger) := logger_emit logger Debug.
Definition logger_error (logger : option Logger) := logger_emit logger Error.

(** One iteration of the loop: the [try] block with its [continue], and
    the [catch] clause. *)
Definition register_one (logger : option Logger) (d : TemplateDefinition.t)
  : M E unit :=
  let metadata := TemplateDefinition.metadata d in
  let content := TemplateDefinition.content d in
  try_catch
    (existing <- templateRepo_findMany (existence_query metadata) first_only ;;
     if 0 <? List.length existing then
       logger_debug logger
         (CtxSkipped (TemplateMetadata.tags metadata)
                     (TemplateMetadata.name metadata))
         "Template already exists, skipping"
     else
       created <- templateRepo_createTemplate (templateDef metadata content) ;;
       logger_debug logger
         (CtxRegistered (EmailTemplate.id created)
                        (EmailTemplate.name created)
                        (EmailTemplate.tags created))
         "Email template registered")
    (fun error =>
       logger_error logger
         (CtxFailed error (TemplateMetadata.name metadata)
                          (TemplateMetadata.tags metadata))
         "Failed to register email template").

(** The [for ... of] loop of [registerTemplates]. *)
Definition register_loop (templates : list TemplateDefinition.t)
    (logger : option Logger) : M E unit :=
  for_of templates (register_one logger).

(** [registerTemplates(db, templates, logger)] *)
Definition registerTemplates (templates : list TemplateDefinition.t)
    (logger : option Logger) : M E unit :=
  new_EmailTemplateRepository logger ;;
  register_loop templates logger.

(** [registerAuthTemplates(db, logger)] of the loader. *)
Definition registerAuthTemplates (tags : EmailTemplateTags.t)
    (src : TemplateSources) (logger : option Logger) : M E unit :=
  logger_debug logger CtxNone "Registering auth module email templates" ;;
  registerTemplates (AUTH_TEMPLATES tags src) logger ;;
  logger_debug logger CtxNone "Auth module email templates registered".

(** The calls of the logger at level [l] return, in whatever state they
    are made; so they do when there is no logger. *)
Definition returns (logger : option Logger) (l : Level) : Prop :=
  forall ctx m (w : World E), fst (logger_emit logger l ctx m w) = inr tt.

End Registrar.

End General.

(** The collaborators that section [Registrar] assumes: the repository
    takes no notice of the logger, and the logger returns. *)
Definition ReturningLogger {Db : Type} (Repo : EmailTemplateRepository Db)
  : General.Collaborators Db :=
  {| General.construct := fun _ => construct;
     General.findMany := findMany;
     General.createTemplate := createTemplate;
     General.logger_call := fun _ _ _ s => (inr tt, s) |}.

(** ** The store

    The repository class is implemented in [template.repo], outside the
    code verified here; the specification gives its contract: [findMany(filter: {tags},
    {pagination: {limit, offset}}) -> sequence of records] and
    [createTemplate(record) -> created record with identifier]. *)

(** The page of a result list that [pagination] asks for. *)
Definition page {A} (o : QueryOptions) (l : list A) : list A :=
  firstn (limit (pagination o)) (skipn (offset (pagination o)) l).

(** Whether a stored record answers a query, given the comparison
    [tags_match stored queried] the store applies to tag lists. *)
Definition matching (tags_match : list jsstring -> list jsstring -> bool)
    (f : TemplateFilters) (r : EmailTemplate.t) : bool :=
  tags_match (EmailTemplate.tags r) (filter_tags f).

(** Tag lists denote sets of labels. *)
Definition same_tag_set (a b : list jsstring) : Prop :=
  forall x, In x a <-> In x b.

(** The persistence contract.  [records] reads the stored templates off a
    database state.  Opening the repository and querying it do not change
    them; [findMany] returns the requested page of the records that
    match; [createTemplate] appends the new record and returns it; and a
    record that carries the queried tag set is a match, whatever else the
    store takes for one. *)
Class PersistenceContract {Db : Type} (Repo : EmailTemplateRepository Db)
    (records : Db -> list EmailTemplate.t)
    (tags_match : list jsstring -> list jsstring -> bool) : Prop := {
  construct_opens :
    forall s, exists s',
      construct s = (inr tt, s') /\ records s' = records s;
  findMany_returns_matches :
    forall f o s, exists s',
      findMany f o s
      = (inr (page o (filter (matching tags_match f) (records s))), s')
      /\ records s' = records s;
  createTemplate_appends :
    forall t s, exists r s',
      createTemplate t s = (inr r, s')
      /\ EmailTemplate.fields r = t
      /\ records s' = records s ++ [r];
  same_tag_set_matches :
    forall stored queried,
      same_tag_set stored queried -> tags_match stored queried = true
}.

(** The same contract for collaborators taken together: in addition,
    the calls of the logger return and leave the stored records alone. *)
Class Cooperative {E : Type} (C : General.Collaborators E)
    (records : E -> list EmailTemplate.t)
    (tags_match : list jsstring -> list jsstring -> bool) : Prop := {
  cooperative_construct :
    forall logger s, exists s',
      General.construct logger s = (inr tt, s') /\ records s' = records s;
  cooperative_findMany :
    forall f o s, exists s',
      General.findMany f o s
      = (inr (page o (filter (matching tags_match f) (records s))), s')
      /\ records s' = records s;
  cooperative_createTemplate :
    forall t s, exists r s',
      General.createTemplate t s = (inr r, s')
      /\ EmailTemplate.fields r = t
      /\ records s' = records s ++ [r];
  cooperative_logger :
    forall l ctx m s, exists s',
      General.logger_call l ctx m s = (inr tt, s') /\ records s' = records s;
  cooperative_match :
    forall stored queried,
      same_tag_set stored queried -> tags_match stored queried = true
}.

(** Modelled from the spec: identifiers are generated by the store
    ([template.repo], outside the code verified here); this store numbers
    its records. *)
Definition generated_id (db : list EmailTemplate.t) : jsstring :=
  js "tpl_" ++ js (NilZero.string_of_uint (Nat.to_uint (List.length db))).

Section MemoryStore.
Variable tags_match : list jsstring -> list jsstring -> bool.

Definition mem_construct (db : list EmailTemplate.t)
  : result unit * list EmailTemplate.t := (inr tt, db).

(** Modelled from the spec: [findMany] of the absent repository class, as
    a filter over the records in insertion order. *)
Definition mem_findMany (f : TemplateFilters) (o : QueryOptions)
    (db : list EmailTemplate.t)
  : result (list EmailTemplate.t) * list EmailTemplate.t :=
  (inr (page o (filter (matching tags_match f) db)), db).

(** Modelled from the spec: [createTemplate] of the absent repository
    class; there is no uniqueness constraint, the record is appended. *)
Definition mem_createTemplate (t : NewEmailTemplate.t)
    (db : list EmailTemplate.t)
  : result EmailTemplate.t * list EmailTemplate.t :=
  let r := {| EmailTemplate.id := generated_id db;
              EmailTemplate.fields := t |} in
  (inr r, db ++ [r]).

(** Modelled from the spec: an in-memory [EmailTemplateRepository] whose
    database is the sequence of its records. *)
Definition MemoryStore : EmailTemplateRepository (list EmailTemplate.t) :=
  {| construct := mem_construct;
     findMany := mem_findMany;
     createTemplate := mem_createTemplate |}.

End MemoryStore.

Definition tags_subset (a b : list jsstring) : bool :=
  forallb (fun x => existsb (jsstring_eqb x) b) a.

(** Two ways a store may compare tags: the stored tags contain every
    queried tag, or both denote the same set. *)
Definition match_contains (stored queried : list jsstring) : bool :=
  tags_subset queried stored.

Definition match_same_set (stored queried : list jsstring) : bool :=
  tags_subset queried stored && tags_subset stored queried.

(** The records a run asked the store to insert, and the queries it made. *)
Fixpoint create_requests (cs : list Call) : list NewEmailTemplate.t :=
  match cs with
  | [] => []
  | CCreateTemplate t _ :: rest => t :: create_requests rest
  | CFindMany _ _ _ :: rest => create_requests rest
  end.

Fixpoint find_requests (cs : list Call) : list TemplateFilters :=
  match cs with
  | [] => []
  | CFindMany f _ _ :: rest => f :: find_requests rest
  | CCreateTemplate _ _ :: rest => find_requests rest
  end.

Definition is_error (e : LogEntry) : bool :=
  match level e with Error => true | Debug => false end.

(** ** The build script: values and platform *)

Local Open Scope N_scope.

(** Values that [JSON.parse] can produce, and [undefined].  A number is an
    IEEE 754 double; an object lists its own properties in insertion
    order. *)
Inductive JsValue : Type :=
| JUndefined
| JNull
| JBool (b : bool)
| JNumber (f : spec_float)
| JString (s : jsstring)
| JArray (elements : list JsValue)
| JObject (properties : list (jsstring * JsValue)).

(** ToBoolean *)
Definition truthy (v : JsValue) : bool :=
  match v with
  | JUndefined | JNull => false
  | JBool b => b
  | JNumber (S754_zero _) | JNumber S754_nan => false
  | JNumber _ => true
  | JString s => match s with [] => false | _ :: _ => true end
  | JArray _ | JObject _ => true
  end.

Fixpoint own_property (key : jsstring) (props : list (jsstring * JsValue))
  : option JsValue :=
  match props with
  | [] => None
  | (k, v) :: rest => if jsstring_eqb k key then Some v
                      else own_property key rest
  end.

Definition TypeError : exn := Thrown (js "TypeError").

(** [value.version]: reading a property of [null] or [undefined] throws;
    neither the prototypes of the primitive wrappers nor those of arrays
    and plain objects define [version]. *)
Definition get_version (value : JsValue) : result JsValue :=
  match value with
  | JUndefined | JNull => inl TypeError
  | JObject props =>
      match own_property (js "version") props with
      | Some v => inr v
      | None => inr JUndefined
      end
  | _ => inr JUndefined
  end.

(** What the script observes of the machine it runs on: the file system,
    the shell, the clock, and the runtime's built-ins. *)
Record Platform := {
  process_cwd : jsstring;
  path_join : jsstring -> jsstring -> jsstring;
  existsSync : jsstring -> bool;
  readFileSync : jsstring -> result jsstring;
  JSON_parse : jsstring -> result JsValue;
  shell_text : jsstring -> result jsstring;
  Date_toISOString : jsstring;
  Date_toLocaleString : jsstring;
  Bun_version : jsstring
}.

(** Synchronous and awaited steps that may throw. *)
Definition and_then {A B} (c : result A) (k : A -> result B) : result B :=
  match c with
  | inr a => k a
  | inl e => inl e
  end.

Definition try_ {A} (body : result A) (handler : exn -> result A) : result A :=
  match body with
  | inr a => inr a
  | inl e => handler e
  end.

Notation "'let*' x := c 'in' k" := (and_then c (fun x => k))
  (at level 10, x name, c at level 100, k at level 200).

(** String.prototype.trim strips white space and line terminators. *)
Definition is_trimmable (c : N) : bool :=
  ((9 <=? c) && (c <=? 13)) || (c =? 32) || (c =? 160) || (c =? 5760)
  || ((8192 <=? c) && (c <=? 8202)) || (c =? 8232) || (c =? 8233)
  || (c =? 8239) || (c =? 8287) || (c =? 12288) || (c =? 65279).

Fixpoint trim_start (s : jsstring) : jsstring :=
  match s with
  | c :: rest => if is_trimmable c then trim_start rest else s
  | [] => []
  end.

Definition String_trim (s : jsstring) : jsstring :=
  rev (trim_start (rev (trim_start s))).

Record BuildConstantsOf (V : Type) := {
  BUILD_VERSION : V;
  BUILD_TIME : jsstring;
  BUILD_TIMESTAMP : jsstring;
  GIT_COMMIT : jsstring;
  GIT_BRANCH : jsstring;
  COMPILER_VERSION : jsstring
}.

(** The interface [BuildConstants]: six strings. *)
Definition BuildConstants : Type := BuildConstantsOf jsstring.

Definition getCurrentTimestamp (p : Platform) : jsstring := Date_toISOString p.

Definition getBuildTime (p : Platform) : jsstring := Date_toLocaleString p.

Definition unknown : jsstring := js "unknown".

Definition getGitCommit (p : Platform) : result jsstring :=
  try_
    (if negb (existsSync p (js ".git")) then inr unknown
     else
       let* result := shell_text p (js "git rev-parse HEAD") in
       inr (String_trim result))
    (fun error => inr unknown).

Definition getGitBranch (p : Platform) : result jsstring :=
  try_
    (if negb (existsSync p (js ".git")) then inr unknown
     else
       let* result := shell_text p (js "git rev-parse --abbrev-ref HEAD") in
       inr (String_trim result))
    (fun error => inr unknown).

(** The declared return type is [string], but [JSON.parse] returns [any]:
    a truthy [version] of any type is returned as it is. *)
Definition getPackageVersion (p : Platform) : result JsValue :=
  try_
    (let packagePath := path_join p (process_cwd p) (js "package.json") in
     let* content := readFileSync p packagePath in
     let* packageJson := JSON_parse p content in
     let* version := get_version packageJson in
     inr (if truthy version then version else JString (js "0.0.0")))
    (fun error => inr (JString (js "0.0.0"))).

Definition getCompilerVersion (p : Platform) : jsstring := Bun_version p.

(** [await Promise.all([a, b])] *)
Definition Promise_all2 {A B} (a : result A) (b : result B) : result (A * B) :=
  let* x := a in
  let* y := b in
  inr (x, y).

(** ToString, as a template literal applies it to a value that
    [JSON.parse] produced, or to [undefined].  The console is not
    recorded, so the text is left out; what is kept is whether the
    conversion throws.  Primitives convert.  An array converts through
    [Array.prototype.join], which converts each of its elements.  A plain
    object converts through [Object.prototype.toString], unless an own
    property [toString] hides that method: a parsed value is never
    callable, [valueOf] yields the object itself, and the conversion ends
    in a TypeError. *)
Fixpoint ToString (v : JsValue) : result unit :=
  match v with
  | JArray elements =>
      (fix join (l : list JsValue) : result unit :=
         match l with
         | [] => inr tt
         | element :: rest => let* _ := ToString element in join rest
         end) elements
  | JObject properties =>
      match own_property (js "toString") properties with
      | Some _ => inl TypeError
      | None => inr tt
      end
  | _ => inr tt
  end.

(** The record built at run time.  Of the console output that follows
    it, the line [`   Version: ${constants.BUILD_VERSION}`] converts a
    value of any type to a string, which may throw; the other lines
    interpolate strings. *)
Definition generateBuildConstants (p : Platform)
  : result (BuildConstantsOf JsValue) :=
  let* gits := Promise_all2 (getGitCommit p) (getGitBranch p) in
  let* version := getPackageVersion p in
  let constants :=
    {| BUILD_VERSION := version;
       BUILD_TIME := getBuildTime p;
       BUILD_TIMESTAMP := getCurrentTimestamp p;
       GIT_COMMIT := fst gits;
       GIT_BRANCH := snd gits;
       COMPILER_VERSION := getCompilerVersion p |} in
  let* _ := ToString (BUILD_VERSION constants) in
  inr constants.

(** ** JSON text of a string

    [JSON.stringify] applied to a string is QuoteJSONString: the string
    is read code point by code point, so a leading surrogate followed by
    a trailing one passes through, and a lone surrogate is escaped. *)
Definition hex_digit (d : N) : N :=
  if d <? 10 then 48 + d else 87 + d.

Definition UnicodeEscape (c : N) : jsstring :=
  [92; 117; hex_digit (c / 4096); hex_digit ((c / 256) mod 16);
   hex_digit ((c / 16) mod 16); hex_digit (c mod 16)].

Definition is_leading_surrogate (c : N) : bool := (55296 <=? c) && (c <=? 56319).
Definition is_trailing_surrogate (c : N) : bool := (56320 <=? c) && (c <=? 57343).

Definition quote_code_unit (c : N) : jsstring :=
  if c =? 8 then [92; 98]
  else if c =? 9 then [92; 116]
  else if c =? 10 then [92; 110]
  else if c =? 12 then [92; 102]
  else if c =? 13 then [92; 114]
  else if c =? 34 then [92; 34]
  else if c =? 92 then [92; 92]
  else if (c <? 32) || is_leading_surrogate c || is_trailing_surrogate c
       then UnicodeEscape c
  else [c].

Fixpoint quote_code_points (s : jsstring) : jsstring :=
  match s with
  | [] => []
  | c :: rest =>
      match rest with
      | d :: rest' =>
          if is_leading_surrogate c && is_trailing_surrogate d
          then c :: d :: quote_code_points rest'
          else quote_code_unit c ++ quote_code_points rest
      | [] => quote_code_unit c
      end
  end.

Definition QuoteJSONString (value : jsstring) : jsstring :=
  34 :: quote_code_points value ++ [34].

Definition JSON_stringify (value : jsstring) : jsstring := QuoteJSONString value.

(** [Object.entries(constants)] *)
Definition Object_entries (constants : BuildConstants)
  : list (jsstring * jsstring) :=
  [ (js "BUILD_VERSION", BUILD_VERSION constants);
    (js "BUILD_TIME", BUILD_TIME constants);
    (js "BUILD_TIMESTAMP", BUILD_TIMESTAMP constants);
    (js "GIT_COMMIT", GIT_COMMIT constants);
    (js "GIT_BRANCH", GIT_BRANCH constants);
    (js "COMPILER_VERSION", COMPILER_VERSION constants) ].

Definition constantsToDefineArgs (constants : BuildConstants) : list jsstring :=
  fold_left
    (fun args entry =>
       let '(key, value) := entry in
       args ++ [js "--define"; key ++ js "=" ++ JSON_stringify value])
    (Object_entries constants)
    [].

(** ** Reading define arguments back

    The inverse the round-trip property speaks of: each [--define] is
    followed by [KEY=JSON_VALUE], which is split at its first [=], and the
    value is decoded as the JSON text of a string. *)
Definition hex_value (c : N) : option N :=
  if (48 <=? c) && (c <=? 57) then Some (c - 48)
  else if (97 <=? c) && (c <=? 102) then Some (c - 87)
  else if (65 <=? c) && (c <=? 70) then Some (c - 55)
  else None.

Definition hex4 (a b c d : N) : option N :=
  match hex_value a, hex_value b, hex_value c, hex_value d with
  | Some x, Some y, Some z, Some w => Some (((x * 16 + y) * 16 + z) * 16 + w)
  | _, _, _, _ => None
  end.

Definition single_escape (c : N) : option N :=
  if c =? 34 then Some 34
  else if c =? 92 then Some 92
  else if c =? 47 then Some 47
  else if c =? 98 then Some 8
  else if c =? 102 then Some 12
  else if c =? 110 then Some 10
  else if c =? 114 then Some 13
  else if c =? 116 then Some 9
  else None.

Definition consume (c : N) (r : option (jsstring * jsstring))
  : option (jsstring * jsstring) :=
  match r with
  | Some (decoded, rest) => Some (c :: decoded, rest)
  | None => None
  end.

(** The characters of a JSON string after its opening quote, up to and
    including the closing one; what follows is returned untouched. *)
Fixpoint JSON_string_characters (s : jsstring) : option (jsstring * jsstring) :=
  match s with
  | [] => None
  | c :: r =>
      if c =? 34 then Some ([], r)
      else if c =? 92 then
        match r with
        | [] => None
        | e :: r' =>
            if e =? 117 then
              match r' with
              | h1 :: h2 :: h3 :: h4 :: r'' =>
                  match hex4 h1 h2 h3 h4 with
                  | Some u => consume u (JSON_string_characters r'')
                  | None => None
                  end
              | _ => None
              end
            else
              match single_escape e with
              | Some u => consume u (JSON_string_characters r')
              | None => None
              end
        end
      else if c <? 32 then None
      else consume c (JSON_string_characters r)
  end.

Definition is_json_whitespace (c : N) : bool :=
  (c =? 32) || (c =? 9) || (c =? 10) || (c =? 13).

Fixpoint skip_whitespace (s : jsstring) : jsstring :=
  match s with
  | c :: rest => if is_json_whitespace c then skip_whitespace rest else s
  | [] => []
  end.

(** [JSON.parse] on a text that is one string literal. *)
Definition JSON_parse_string (text : jsstring) : option jsstring :=
  match skip_whitespace text with
  | 34 :: r =>
      match JSON_string_characters r with
      | Some (decoded, rest) =>
          match skip_whitespace rest with
          | [] => Some decoded
          | _ :: _ => None
          end
      | None => None
      end
  | _ => None
  end.

Fixpoint split_at_first_equals (s : jsstring) : option (jsstring * jsstring) :=
  match s with
  | [] => None
  | c :: rest =>
      if c =? 61 then Some ([], rest)
      else match split_at_first_equals rest with
           | Some (k, v) => Some (c :: k, v)
           | None => None
           end
  end.

Fixpoint parseDefineArgs (args : list jsstring)
  : option (list (jsstring * jsstring)) :=
  match args with
  | [] => Some []
  | flag :: assignment :: rest =>
      if jsstring_eqb flag (js "--define") then
        match split_at_first_equals assignment with
        | Some (key, text) =>
            match JSON_parse_string text, parseDefineArgs rest with
            | Some value, Some entries => Some ((key, value) :: entries)
            | _, _ => None
            end
        | None => None
        end
      else None
  | [_] => None
  end.

(** ** Platforms used in examples *)

Definition SyntaxError : exn := Thrown (js "SyntaxError").
Definition ENOENT : exn := Thrown (js "ENOENT").
Definition ShellError : exn := Thrown (js "ShellError").

(** A [JSON.parse] that knows the listed texts and rejects every other. *)
Definition canned_JSON_parse (known : list (jsstring * JsValue))
    (text : jsstring) : result JsValue :=
  match find (fun entry => jsstring_eqb (fst entry) text) known with
  | Some (_, value) => inr value
  | None => inl SyntaxError
  end.

Definition sample_platform (git_dir : bool) (commit branch : result jsstring)
    (manifest : result jsstring) (known : list (jsstring * JsValue))
  : Platform :=
  {| process_cwd := js "/srv/api";
     path_join := fun a b => a ++ js "/" ++ b;
     existsSync := fun path => jsstring_eqb path (js ".git") && git_dir;
     readFileSync := fun path =>
       if jsstring_eqb path (js "/srv/api/package.json") then manifest
       else inl ENOENT;
     JSON_parse := canned_JSON_parse known;
     shell_text := fun command =>
       if jsstring_eqb command (js "git rev-parse HEAD") then commit
       else if jsstring_eqb command (js "git rev-parse --abbrev-ref HEAD")
            then branch
       else inl ShellError;
     Date_toISOString := js "2025-01-01T00:00:00.000Z";
     Date_toLocaleString := js "January 1, 2025 at 12:00:00 AM UTC";
     Bun_version := js "1.1.0" |}.

(** The text of a manifest that declares a name and no version, and the
    object it parses to. *)
Definition manifest_without_version : jsstring :=
  js "{" ++ JSON_stringify (js "name") ++ js ":"
         ++ JSON_stringify (js "api") ++ js "}".

Definition parsed_without_version : JsValue :=
  JObject [(js "name", JString (js "api"))].

Definition sample_constants : BuildConstants :=
  {| BUILD_VERSION := js "1.4.2";
     BUILD_TIME := js "January 1, 2025 at 12:00:00 AM UTC";
     BUILD_TIMESTAMP := js "2025-01-01T00:00:00.000Z";
     GIT_COMMIT := js "9fceb02d0ae598e95dc970b74767f19372d61af8";
     GIT_BRANCH := js "release/a=b" ++ [92; 34; 10; 55357; 56832; 56832];
     COMPILER_VERSION := js "1.1.0" |}.

(** ** Stores and inputs used in examples *)

(** A store that fails on schedule: the state pairs the outcomes still
    scripted (one flag per call, [true] for a throw) with the records of a
    [MemoryStore]; once the script is used up every call succeeds. *)
Definition Scripted : Type := (list bool * list EmailTemplate.t)%type.

Definition scripted {A} (op : list EmailTemplate.t -> result A * list EmailTemplate.t)
    (st : Scripted) : result A * Scripted :=
  match st with
  | (true :: script, db) => (inl (Thrown (js "connection lost")), (script, db))
  | (false :: script, db) => let (r, db') := op db in (r, (script, db'))
  | ([], db) => let (r, db') := op db in (r, ([], db'))
  end.

Definition ScriptedStore : EmailTemplateRepository Scripted :=
  {| construct := fun st => (inr tt, st);
     findMany := fun f o => scripted (mem_findMany match_contains f o);
     createTemplate := fun t => scripted (mem_createTemplate t) |}.

(** Collaborators that fail on schedule.  The state holds the outcomes
    still scripted for the repository and for the logger (one flag per
    call, [true] for a throw) and the records of a [MemoryStore]; once a
    script is used up the calls it governs succeed.  The constructor
    succeeds, and the logger's script governs the calls at the levels
    that [scripted_level] selects; the calls at other levels return. *)
Record Fixture := {
  store_faults : list bool;
  logger_faults : list bool;
  rows : list EmailTemplate.t
}.

Definition fixture_store {A}
    (op : list EmailTemplate.t -> result A * list EmailTemplate.t)
    (st : Fixture) : result A * Fixture :=
  match store_faults st with
  | true :: script =>
      (inl (Thrown (js "connection lost")),
       {| store_faults := script;
          logger_faults := logger_faults st;
          rows := rows st |})
  | script =>
      let (r, db) := op (rows st) in
      (r, {| store_faults := tl script;
             logger_faults := logger_faults st;
             rows := db |})
  end.

Definition fixture_logger (st : Fixture) : result unit * Fixture :=
  match logger_faults st with
  | true :: script =>
      (inl (Thrown (js "logger failed")),
       {| store_faults := store_faults st;
          logger_faults := script;
          rows := rows st |})
  | script =>
      (inr tt, {| store_faults := store_faults st;
                  logger_faults := tl script;
                  rows := rows st |})
  end.

Definition FaultyCollaborators (scripted_level : Level -> bool)
    (tags_match : list jsstring -> list jsstring -> bool)
  : General.Collaborators Fixture :=
  {| General.construct := fun _ st => (inr tt, st);
     General.findMany := fun f o => fixture_store (mem_findMany tags_match f o);
     General.createTemplate := fun t => fixture_store (mem_createTemplate t);
     General.logger_call := fun l _ _ st =>
       if scripted_level l then fixture_logger st else (inr tt, st) |}.

Definition every_level (l : Level) : bool := true.

Definition debug_level (l : Level) : bool :=
  match l with Debug => true | Error => false end.

Definition fixture (store_script logger_script : list bool)
    (db : list EmailTemplate.t) : Fixture :=
  {| store_faults := store_script;
     logger_faults := logger_script;
     rows := db |}.

(** A store that cannot even be opened. *)
Definition BrokenStore : EmailTemplateRepository unit :=
  {| construct := fun st => (inl (Thrown (js "no database")), st);
     findMany := fun _ _ st => (inr [], st);
     createTemplate := fun t st =>
       (inr {| EmailTemplate.id := []; EmailTemplate.fields := t |}, st) |}.

Definition sample_definition (name subject : string) (tags : list jsstring)
    (html : string) : TemplateDefinition.t :=
  {| TemplateDefinition.metadata :=
       {| TemplateMetadata.name := js name;
          TemplateMetadata.description := js name;
          TemplateMetadata.subject := js subject;
          TemplateMetadata.tags := tags;
          TemplateMetadata.variables :=
            [required_variable "name" "string" "Recipient Name" None None None;
             required_variable "email" "email" "Email Address" None None None];
          TemplateMetadata.fromName := None;
          TemplateMetadata.fromEmail := None;
          TemplateMetadata.replyToEmail := None;
          TemplateMetadata.replyToName := None |};
     TemplateDefinition.content :=
       {| TemplateContent.html := js html;
          TemplateContent.text := None |} |}.

Definition verify_email : TemplateDefinition.t :=
  sample_definition "Email Verification" "Verify your email address"
    [js "auth"; js "verify"] "<p>Verify</p>".

Definition verify_email_v2 : TemplateDefinition.t :=
  sample_definition "Email Verification" "Please confirm your address"
    [js "verify"; js "auth"] "<p>Confirm</p>".

Definition password_reset : TemplateDefinition.t :=
  sample_definition "Password Reset" "Reset your password"
    [js "auth"; js "reset"] "<p>Reset</p>".

Definition welcome : TemplateDefinition.t :=
  sample_definition "Welcome Email" "Welcome to Monobase!"
    [js "auth"; js "welcome"] "<p>Welcome</p>".

(** Two notices that carry the one tag [auth], which the tags of
    [verify_email] contain. *)
Definition auth_notice : TemplateDefinition.t :=
  sample_definition "Security Notice" "A new device signed in"
    [js "auth"] "<p>New device</p>".

Definition auth_notice_v2 : TemplateDefinition.t :=
  sample_definition "Security Notice" "Your password was changed"
    [js "auth"] "<p>Password changed</p>".

Definition sample_tags : EmailTemplateTags.t :=
  {| EmailTemplateTags.AUTH_EMAIL_VERIFY := js "auth:email-verify";
     EmailTemplateTags.AUTH_PASSWORD_RESET := js "auth:password-reset";
     EmailTemplateTags.AUTH_2FA := js "auth:2fa";
     EmailTemplateTags.AUTH_WELCOME := js "auth:welcome" |}.

Definition sample_sources : TemplateSources :=
  {| emailVerifyHtml := js "<a href={{verificationLink}}>Verify</a>";
     emailVerifyText := js "Verify: {{verificationLink}}";
     passwordResetHtml := js "<a href={{resetLink}}>Reset</a>";
     passwordResetText := js "Reset: {{resetLink}}";
     twoFactorHtml := js "<b>{{code}}</b>";
     twoFactorText := js "Code: {{code}}";
     welcomeHtml := js "<a href={{dashboardLink}}>Welcome</a>";
     welcomeText := js "Welcome: {{dashboardLink}}" |}.

(** A stub world: nothing recorded yet. *)
Definition fresh {Db} (db : Db) : World Db :=
  {| store := db; calls := []; log := [] |}.

(** ** What one turn of the loop may ask of the store

    Per template the specification lists the states unchecked, exists,
    absent then inserted, absent then insert-failed; a failed query is the
    fourth way a turn can end. *)
Inductive attempt (d : TemplateDefinition.t) : list Call -> Prop :=
| attempt_query_failed e :
    attempt d [CFindMany (existence_query (TemplateDefinition.metadata d))
                         first_only (inl e)]
| attempt_exists r rs :
    attempt d [CFindMany (existence_query (TemplateDefinition.metadata d))
                         first_only (inr (r :: rs))]
| attempt_absent res :
    attempt d [CFindMany (existence_query (TemplateDefinition.metadata d))
                         first_only (inr []);
               CCreateTemplate (newTemplateOf d) res].

(** A record stored before the run. *)
Definition stored_verify_email : EmailTemplate.t :=
  {| EmailTemplate.id := js "tpl_legacy";
     EmailTemplate.fields := newTemplateOf verify_email |}.

(** ** Notions used to describe whole runs *)

(** The definitions a run inserts, read off the tag lists the store holds:
    a definition is inserted when neither a stored tag list nor the tags
    of a definition inserted earlier in the batch match its tags. *)
Fixpoint to_insert (tags_match : list jsstring -> list jsstring -> bool)
    (stored : list (list jsstring)) (ds : list TemplateDefinition.t)
  : list TemplateDefinition.t :=
  match ds with
  | [] => []
  | d :: rest =>
      let tags := TemplateMetadata.tags (TemplateDefinition.metadata d) in
      if existsb (fun t => tags_match t tags) stored
      then to_insert tags_match stored rest
      else d :: to_insert tags_match (stored ++ [tags]) rest
  end.

(** The four ways a turn of the loop can go, with the calls it makes and
    the entry it hands to the logger. *)
Inductive turn (d : TemplateDefinition.t) : list Call -> LogEntry -> Prop :=
| turn_query_failed e :
    turn d
      [CFindMany (existence_query (TemplateDefinition.metadata d))
                 first_only (inl e)]
      {| level := Error;
         context := CtxFailed e
                      (TemplateMetadata.name (TemplateDefinition.metadata d))
                      (TemplateMetadata.tags (TemplateDefinition.metadata d));
         msg := js "Failed to register email template" |}
| turn_skipped r rs :
    turn d
      [CFindMany (existence_query (TemplateDefinition.metadata d))
                 first_only (inr (r :: rs))]
      {| level := Debug;
         context := CtxSkipped
                      (TemplateMetadata.tags (TemplateDefinition.metadata d))
                      (TemplateMetadata.name (TemplateDefinition.metadata d));
         msg := js "Template already exists, skipping" |}
| turn_insert_failed e :
    turn d
      [CFindMany (existence_query (TemplateDefinition.metadata d))
                 first_only (inr []);
       CCreateTemplate (newTemplateOf d) (inl e)]
      {| level := Error;
         context := CtxFailed e
                      (TemplateMetadata.name (TemplateDefinition.metadata d))
                      (TemplateMetadata.tags (TemplateDefinition.metadata d));
         msg := js "Failed to register email template" |}
| turn_registered created :
    turn d
      [CFindMany (existence_query (TemplateDefinition.metadata d))
                 first_only (inr []);
       CCreateTemplate (newTemplateOf d) (inr created)]
      {| level := Debug;
         context := CtxRegistered (EmailTemplate.id created)
                                  (EmailTemplate.name created)
                                  (EmailTemplate.tags created);
         msg := js "Email template registered" |}.

(** Whether a recorded call threw. *)
Definition call_failed (c : Call) : bool :=
  match c with
  | CFindMany _ _ (inl _) | CCreateTemplate _ (inl _) => true
  | _ => false
  end.

(** ** The bundler invocation of the build script *)

(** What [Bun.spawn] and the three awaits that follow it deliver: the
    text of both pipes and the exit code. *)
Record Spawned := {
  stdout_text : jsstring;
  stderr_text : jsstring;
  exited : Z
}.

(** The literal [buildArgs] of [buildBinary]. *)
Definition buildArgs : list jsstring :=
  [ js "build"; js "--compile"; js "--minify"; js "--sourcemap";
    js "--define";
    js "process.env.NODE_ENV=" ++ [34%N] ++ js "production" ++ [34%N];
    js "--external"; js "ajv";
    js "--external"; js "ajv-draft-04";
    js "src/index.ts"; js "--outfile"; js "dist/server" ].

(** The command line handed to [Bun.spawn]. *)
Definition build_command (constants : BuildConstants) : list jsstring :=
  js "bun" :: buildArgs ++ constantsToDefineArgs constants.

(** [buildBinary]; [spawn] is [Bun.spawn] followed by the reading of its
    pipes and exit code, any of which may throw inside the [try].
    Console output is not part of the result. *)
Definition buildBinary (spawn : list jsstring -> result Spawned)
    (constants : BuildConstants) : result bool :=
  try_
    (let* buildProcess := spawn (build_command constants) in
     inr (exited buildProcess =? 0)%Z)
    (fun error => inr false).

(** The assignments that follow a [--define] flag on a command line. *)
Fixpoint defines_of (argv : list jsstring) : list jsstring :=
  match argv with
  | [] => []
  | flag :: rest =>
      if jsstring_eqb flag (js "--define") then
        match rest with
        | assignment :: rest' => assignment :: defines_of rest'
        | [] => []
        end
      else defines_of rest
  end.

(** Whether a string starts, or ends, with something [trim] removes. *)
Definition starts_clean (s : jsstring) : bool :=
  match s with
  | c :: _ => negb (is_trimmable c)
  | [] => true
  end.

Definition ends_clean (s : jsstring) : bool := starts_clean (rev s).

(** Well-formed UTF-16: every leading surrogate is followed by a trailing
    one, and no trailing surrogate stands alone. *)
Fixpoint well_formed_utf16 (s : jsstring) : bool :=
  match s with
  | [] => true
  | c :: rest =>
      if is_leading_surrogate c then
        match rest with
        | d :: rest' => is_trailing_surrogate d && well_formed_utf16 rest'
        | [] => false
        end
      else negb (is_trailing_surrogate c) && well_formed_utf16 rest
  end.

(** * Properties of the registrar *)

Section RegistrarFacts.
Context {Db : Type} {Repo : EmailTemplateRepository Db}.

Local Open Scope nat_scope.

Lemma logger_emit_returns (logger : option Logger) l ctx m (w : World Db) :
  fst (logger_emit logger l ctx m w) = inr tt.
Proof. destruct logger; reflexivity. Qed.

Lemma logger_emit_store (logger : option Logger) l ctx m (w : World Db) :
  store (snd (logger_emit logger l ctx m w)) = store w.
Proof. destruct logger; reflexivity. Qed.

Lemma logger_emit_calls (logger : option Logger) l ctx m (w : World Db) :
  calls (snd (logger_emit logger l ctx m w)) = calls w.
Proof. destruct logger; reflexivity. Qed.

(** One turn, read off the outcome of the two repository calls. *)
Lemma register_one_unfold logger d (w : World Db) :
  register_one logger d w =
  let metadata := TemplateDefinition.metadata d in
  let q := existence_query metadata in
  match findMany q first_only (store w) with
  | (inl e, s) =>
      logger_error logger
        (CtxFailed e (TemplateMetadata.name metadata)
                     (TemplateMetadata.tags metadata))
        "Failed to register email template"
        {| store := s;
           calls := calls w ++ [CFindMany q first_only (inl e)];
           log := log w |}
  | (inr (r :: rs), s) =>
      logger_debug logger
        (CtxSkipped (TemplateMetadata.tags metadata)
                    (TemplateMetadata.name metadata))
        "Template already exists, skipping"
        {| store := s;
           calls := calls w ++ [CFindMany q first_only (inr (r :: rs))];
           log := log w |}
  | (inr [], s) =>
      let cs := calls w ++ [CFindMany q first_only (inr [])] in
      match createTemplate (newTemplateOf d) s with
      | (inl e, s') =>
          logger_error logger
            (CtxFailed e (TemplateMetadata.name metadata)
                         (TemplateMetadata.tags metadata))
            "Failed to register email template"
            {| store := s';
               calls := cs ++ [CCreateTemplate (newTemplateOf d) (inl e)];
               log := log w |}
      | (inr created, s') =>
          logger_debug logger
            (CtxRegistered (EmailTemplate.id created)
                           (EmailTemplate.name created)
                           (EmailTemplate.tags created))
            "Email template registered"
            {| store := s';
               calls := cs ++ [CCreateTemplate (newTemplateOf d) (inr created)];
               log := log w |}
      end
  end.
Proof.
  unfold register_one, try_catch, bind, templateRepo_findMany,
    templateRepo_createTemplate, newTemplateOf.
  cbn zeta.
  destruct (findMany _ first_only (store w)) as [[e | [ | r rs]] s]; cbn.
  - reflexivity.
  - destruct (createTemplate _ s) as [[e | created] s']; cbn.
    + reflexivity.
    + unfold logger_debug.
      destruct logger; reflexivity.
  - unfold logger_debug. destruct logger; reflexivity.
Qed.

(** The [catch] clause leaves nothing to propagate. *)
Lemma register_one_returns logger d (w : World Db) :
  fst (register_one logger d w) = inr tt.
Proof.
  rewrite register_one_unfold. cbn zeta.
  destruct (findMany _ first_only (store w)) as [[e | [ | r rs]] s].
  - apply logger_emit_returns.
  - destruct (createTemplate _ s) as [[e | created] s'];
      apply logger_emit_returns.
  - apply logger_emit_returns.
Qed.

Lemma register_one_exec logger d (w : World Db) :
  register_one logger d w = (inr tt, exec (register_one logger d) w).
Proof.
  unfold exec. rewrite <- (register_one_returns logger d w).
  destruct (register_one logger d w); reflexivity.
Qed.

Lemma register_loop_cons logger d ds (w : World Db) :
  register_loop (d :: ds) logger w =
  register_loop ds logger (exec (register_one logger d) w).
Proof.
  unfold register_loop. cbn [for_of]. unfold bind.
  rewrite register_one_exec. reflexivity.
Qed.

Lemma register_loop_returns logger ds (w : World Db) :
  fst (register_loop ds logger w) = inr tt.
Proof.
  revert w. induction ds as [ | d ds IH]; intro w.
  - reflexivity.
  - rewrite register_loop_cons. apply IH.
Qed.

Lemma register_loop_exec logger ds (w : World Db) :
  register_loop ds logger w = (inr tt, exec (register_loop ds logger) w).
Proof.
  unfold exec. rewrite <- (register_loop_returns logger ds w).
  destruct (register_loop ds logger w); reflexivity.
Qed.

Lemma exec_register_loop_cons logger d ds (w : World Db) :
  exec (register_loop (d :: ds) logger) w =
  exec (register_loop ds logger) (exec (register_one logger d) w).
Proof. unfold exec at 1 2. rewrite register_loop_cons. reflexivity. Qed.

Lemma register_loop_app logger ds1 ds2 (w : World Db) :
  register_loop (ds1 ++ ds2) logger w =
  register_loop ds2 logger (exec (register_loop ds1 logger) w).
Proof.
  revert w. induction ds1 as [ | d ds1 IH]; intro w.
  - reflexivity.
  - cbn [app]. rewrite register_loop_cons, IH, exec_register_loop_cons.
    reflexivity.
Qed.

(** The calls of one turn. *)
Lemma register_one_attempt logger d (w : World Db) :
  exists group,
    attempt d group /\
    calls (exec (register_one logger d) w) = calls w ++ group.
Proof.
  unfold exec. rewrite register_one_unfold. cbn zeta.
  destruct (findMany _ first_only (store w)) as [[e | [ | r rs]] s].
  - eexists. split; [apply attempt_query_failed | ].
    unfold logger_error. rewrite logger_emit_calls. reflexivity.
  - destruct (createTemplate _ s) as [[e | created] s'];
      (eexists; split; [apply attempt_absent | ]);
      unfold logger_error, logger_debug; rewrite logger_emit_calls;
      cbn [calls]; rewrite <- app_assoc; reflexivity.
  - eexists. split; [apply attempt_exists | ].
    unfold logger_debug. rewrite logger_emit_calls. reflexivity.
Qed.

Lemma register_loop_attempts logger ds (w : World Db) :
  exists groups,
    Forall2 attempt ds groups /\
    calls (exec (register_loop ds logger) w) = calls w ++ List.concat groups.
Proof.
  revert w. induction ds as [ | d ds IH]; intro w.
  - exists []. split; [constructor | ]. cbn. now rewrite app_nil_r.
  - rewrite exec_register_loop_cons.
    destruct (register_one_attempt logger d w) as (g & Hg & Hc).
    destruct (IH (exec (register_one logger d) w)) as (gs & Hgs & Hcs).
    exists (g :: gs). split; [constructor; assumption | ].
    rewrite Hcs, Hc. cbn [List.concat]. now rewrite app_assoc.
Qed.

Lemma registerTemplates_constructed templates logger (w : World Db) s :
  construct (store w) = (inr tt, s) ->
  registerTemplates templates logger w =
  register_loop templates logger
    {| store := s; calls := calls w; log := log w |}.
Proof.
  intro H. unfold registerTemplates, bind, new_EmailTemplateRepository.
  rewrite H. reflexivity.
Qed.

Lemma registerTemplates_not_constructed templates logger (w : World Db) e s :
  construct (store w) = (inl e, s) ->
  registerTemplates templates logger w =
  (inl e, {| store := s; calls := calls w; log := log w |}).
Proof.
  intro H. unfold registerTemplates, bind, new_EmailTemplateRepository.
  rewrite H. reflexivity.
Qed.

End RegistrarFacts.

Section RegistrarClaims.
Context {Db : Type} {Repo : EmailTemplateRepository Db}.

Local Open Scope nat_scope.

Lemma create_requests_app (a b : list Call) :
  create_requests (a ++ b) = create_requests a ++ create_requests b.
Proof.
  induction a as [ | [f o r | t r] a IH]; cbn; [reflexivity | assumption | ].
  now rewrite IH.
Qed.

Lemma find_requests_app (a b : list Call) :
  find_requests (a ++ b) = find_requests a ++ find_requests b.
Proof.
  induction a as [ | [f o r | t r] a IH]; cbn; [reflexivity | | assumption].
  now rewrite IH.
Qed.

Lemma attempt_create_requests d group :
  attempt d group ->
  create_requests group = [] \/ create_requests group = [newTemplateOf d].
Proof. intros [e | r rs | res]; cbn; auto. Qed.

Lemma templateDef_status metadata content :
  NewEmailTemplate.status (templateDef metadata content) = js "active".
Proof. reflexivity. Qed.

Lemma attempts_insert_active ds groups :
  Forall2 attempt ds groups ->
  Forall (fun t => NewEmailTemplate.status t = js "active")
         (create_requests (List.concat groups)).
Proof.
  induction 1 as [ | d g ds gs Hg _ IH]; cbn [List.concat].
  - constructor.
  - rewrite create_requests_app. apply Forall_app. split; [ | exact IH].
    destruct (attempt_create_requests Hg) as [-> | ->].
    + constructor.
    + constructor; [apply templateDef_status | constructor].
Qed.

Lemma attempts_query_each ds groups :
  Forall2 attempt ds groups ->
  find_requests (List.concat groups) =
  map (fun d => existence_query (TemplateDefinition.metadata d)) ds.
Proof.
  induction 1 as [ | d g ds gs Hg _ IH]; cbn [List.concat map].
  - reflexivity.
  - rewrite find_requests_app, IH. destruct Hg; reflexivity.
Qed.




End RegistrarClaims.

(** ** Runs against a store that keeps the persistence contract *)

Section PersistentStore.
Context {Db : Type} {Repo : EmailTemplateRepository Db}.
Variable records : Db -> list EmailTemplate.t.
Variable tags_match : list jsstring -> list jsstring -> bool.
Context {Contract : PersistenceContract Repo records tags_match}.

Local Open Scope nat_scope.

Local Notation present d db :=
  (existsb (matching tags_match
              (existence_query (TemplateDefinition.metadata d))) db).
Local Notation quiet w :=
  (forallb (fun e => negb (is_error e)) (log w) = true).

Lemma filter_nil_existsb {A} (f : A -> bool) l :
  filter f l = [] <-> existsb f l = false.
Proof.
  induction l as [ | a l IH]; cbn; [tauto | ].
  destruct (f a); cbn; [split; discriminate | exact IH].
Qed.

Lemma first_page_nil {A} (l : list A) : page first_only l = [] <-> l = [].
Proof. destruct l; cbn; split; intro H; try reflexivity; discriminate. Qed.

Lemma logger_emit_quiet (logger : option Logger) ctx m (w : World Db) :
  quiet w -> quiet (snd (logger_emit logger Debug ctx m w)).
Proof.
  intro H. destruct logger; cbn; [ | exact H].
  rewrite forallb_app, H. reflexivity.
Qed.

(** A turn whose tag set is present changes nothing in the store. *)
Lemma turn_present logger d (w : World Db) :
  present d (records (store w)) = true ->
  let w' := exec (register_one logger d) w in
  records (store w') = records (store w)
  /\ create_requests (calls w') = create_requests (calls w)
  /\ (quiet w -> quiet w').
Proof.
  intros Hp w'. unfold w', exec. rewrite register_one_unfold. cbn zeta.
  destruct (findMany_returns_matches
              (existence_query (TemplateDefinition.metadata d)) first_only
              (store w)) as (s' & Hf & Hs').
  rewrite Hf.
  destruct (filter _ (records (store w))) as [ | r rs] eqn:Hfilter.
  - apply filter_nil_existsb in Hfilter. congruence.
  - cbn [page first_only pagination limit offset skipn firstn].
    unfold logger_debug.
    rewrite logger_emit_store, logger_emit_calls. cbn [store calls].
    rewrite create_requests_app. cbn [create_requests]. rewrite app_nil_r.
    split; [exact Hs' | split; [reflexivity | ]].
    intro Hq. apply logger_emit_quiet. exact Hq.
Qed.

(** A turn whose tag set is absent appends the new record. *)
Lemma turn_absent logger d (w : World Db) :
  present d (records (store w)) = false ->
  let w' := exec (register_one logger d) w in
  (exists r, EmailTemplate.fields r = newTemplateOf d
             /\ records (store w') = records (store w) ++ [r])
  /\ create_requests (calls w') = create_requests (calls w) ++ [newTemplateOf d]
  /\ (quiet w -> quiet w').
Proof.
  intros Hp w'. unfold w', exec. rewrite register_one_unfold. cbn zeta.
  destruct (findMany_returns_matches
              (existence_query (TemplateDefinition.metadata d)) first_only
              (store w)) as (s' & Hf & Hs').
  rewrite Hf.
  apply filter_nil_existsb in Hp. rewrite Hp.
  cbn [page first_only pagination limit offset skipn firstn].
  destruct (createTemplate_appends (newTemplateOf d) s')
    as (r & s'' & Hc & Hfields & Hs'').
  rewrite Hc. unfold logger_debug.
  rewrite logger_emit_store, logger_emit_calls. cbn [store calls].
  rewrite !create_requests_app. cbn [create_requests]. rewrite app_nil_r.
  split; [ | split; [reflexivity | ]].
  - exists r. split; [exact Hfields | ]. now rewrite Hs'', Hs'.
  - intro Hq. apply logger_emit_quiet. exact Hq.
Qed.

(** Opening the repository leaves the records alone, and then the loop
    runs. *)
Lemma registerTemplates_opens templates logger (w : World Db) :
  exists s,
    records s = records (store w)
    /\ registerTemplates templates logger w =
       register_loop templates logger
         {| store := s; calls := calls w; log := log w |}.
Proof.
  destruct (construct_opens (store w)) as (s & Hnew & Hs).
  exists s. split; [exact Hs | ].
  now apply registerTemplates_constructed.
Qed.

End PersistentStore.

(** The reference store keeps the contract when its comparison accepts
    equal tag sets. *)
Lemma MemoryStore_contract tags_match :
  (forall stored queried,
      same_tag_set stored queried -> tags_match stored queried = true) ->
  PersistenceContract (MemoryStore tags_match) (fun db => db) tags_match.
Proof.
  intro Hsame. constructor.
  - intro s. exists s. split; reflexivity.
  - intros f o s. exists s. split; reflexivity.
  - intros t s. eexists _, _. repeat split.
  - exact Hsame.
Qed.

(** * The registrar with collaborators of any behaviour *)

Section GeneralFacts.
Context {E : Type} {C : General.Collaborators E}.

Local Open Scope nat_scope.

Local Notation said logger entries :=
  (match logger with Some _ => entries | None => [] end).

Lemma general_logger_emit_calls (logger : option Logger) l ctx m (w : World E) :
  calls (snd (General.logger_emit logger l ctx m w)) = calls w.
Proof.
  unfold General.logger_emit. destruct logger; [ | reflexivity].
  destruct (General.logger_call l ctx (js m) (store w)); reflexivity.
Qed.

Lemma general_logger_emit_log (logger : option Logger) l ctx m (w : World E) :
  log (snd (General.logger_emit logger l ctx m w)) =
  log w ++ said logger [{| level := l; context := ctx; msg := js m |}].
Proof.
  unfold General.logger_emit. destruct logger; [ | cbn; now rewrite app_nil_r].
  destruct (General.logger_call l ctx (js m) (store w)); reflexivity.
Qed.

(** One turn, read off the outcome of the two repository calls: a debug
    call that throws is caught like a repository call that throws. *)
Lemma general_register_one_unfold logger d (w : World E) :
  General.register_one logger d w =
  let metadata := TemplateDefinition.metadata d in
  let q := existence_query metadata in
  let failed := fun e =>
    General.logger_error logger
      (CtxFailed e (TemplateMetadata.name metadata)
                   (TemplateMetadata.tags metadata))
      "Failed to register email template" in
  match General.findMany q first_only (store w) with
  | (inl e, s) =>
      failed e {| store := s;
                  calls := calls w ++ [CFindMany q first_only (inl e)];
                  log := log w |}
  | (inr (r :: rs), s) =>
      try_catch
        (General.logger_debug logger
           (CtxSkipped (TemplateMetadata.tags metadata)
                       (TemplateMetadata.name metadata))
           "Template already exists, skipping")
        failed
        {| store := s;
           calls := calls w ++ [CFindMany q first_only (inr (r :: rs))];
           log := log w |}
  | (inr [], s) =>
      let cs := calls w ++ [CFindMany q first_only (inr [])] in
      match General.createTemplate (newTemplateOf d) s with
      | (inl e, s') =>
          failed e {| store := s';
                      calls := cs ++ [CCreateTemplate (newTemplateOf d) (inl e)];
                      log := log w |}
      | (inr created, s') =>
          try_catch
            (General.logger_debug logger
               (CtxRegistered (EmailTemplate.id created)
                              (EmailTemplate.name created)
                              (EmailTemplate.tags created))
               "Email template registered")
            failed
            {| store := s';
               calls := cs ++ [CCreateTemplate (newTemplateOf d) (inr created)];
               log := log w |}
      end
  end.
Proof.
  unfold General.register_one, try_catch, bind, General.templateRepo_findMany,
    General.templateRepo_createTemplate, newTemplateOf.
  cbn zeta.
  destruct (General.findMany _ first_only (store w)) as [[e | [ | r rs]] s]; cbn.
  - reflexivity.
  - destruct (General.createTemplate _ s) as [[e | created] s']; cbn;
      reflexivity.
  - reflexivity.
Qed.

(** A logger call, guarded or not, makes no repository call. *)
Lemma general_guarded_calls logger l ctx m l' ctx' m' (w : World E) :
  calls (snd (try_catch (General.logger_emit logger l ctx m)
                (fun e => General.logger_emit logger l' (ctx' e) m') w))
  = calls w.
Proof.
  unfold try_catch.
  pose proof (general_logger_emit_calls logger l ctx m w) as H.
  destruct (General.logger_emit logger l ctx m w) as [[e | u] w']; cbn in *.
  - now rewrite general_logger_emit_calls.
  - exact H.
Qed.

(** The calls of one turn, whatever the collaborators do. *)
Lemma general_register_one_attempt logger d (w : World E) :
  exists group,
    attempt d group /\
    calls (exec (General.register_one logger d) w) = calls w ++ group.
Proof.
  unfold exec. rewrite general_register_one_unfold. cbn zeta.
  destruct (General.findMany _ first_only (store w)) as [[e | [ | r rs]] s].
  - eexists. split; [apply attempt_query_failed | ].
    unfold General.logger_error. rewrite general_logger_emit_calls.
    reflexivity.
  - destruct (General.createTemplate _ s) as [[e | created] s'];
      (eexists; split; [apply attempt_absent | ]).
    + unfold General.logger_error. rewrite general_logger_emit_calls.
      cbn [calls]. rewrite <- app_assoc. reflexivity.
    + unfold General.logger_debug, General.logger_error.
      rewrite general_guarded_calls.
      cbn [calls]. rewrite <- app_assoc. reflexivity.
  - eexists. split; [apply attempt_exists | ].
    unfold General.logger_debug, General.logger_error.
    rewrite general_guarded_calls. reflexivity.
Qed.

(** When the error calls of the logger return, the [catch] clause leaves
    nothing to propagate. *)
Lemma general_register_one_returns logger d (w : World E) :
  General.returns logger Error ->
  fst (General.register_one logger d w) = inr tt.
Proof.
  intro Herr. rewrite general_register_one_unfold. cbn zeta.
  assert (Hguard : forall ctx m ctx' m' (v : World E),
            fst (try_catch (General.logger_debug logger ctx m)
                   (fun e => General.logger_error logger (ctx' e) m') v)
            = inr tt).
  { intros ctx m ctx' m' v. unfold try_catch.
    destruct (General.logger_debug logger ctx m v) as [[e | []] v'].
    - apply Herr.
    - reflexivity. }
  destruct (General.findMany _ first_only (store w)) as [[e | [ | r rs]] s].
  - apply Herr.
  - destruct (General.createTemplate _ s) as [[e | created] s'].
    + apply Herr.
    + apply Hguard.
  - apply Hguard.
Qed.

Lemma general_register_loop_cons logger d ds (w : World E) :
  General.register_loop (d :: ds) logger w =
  match General.register_one logger d w with
  | (inr _, w') => General.register_loop ds logger w'
  | (inl e, w') => (inl e, w')
  end.
Proof. reflexivity. Qed.

Lemma general_register_loop_returns logger ds (w : World E) :
  General.returns logger Error ->
  fst (General.register_loop ds logger w) = inr tt.
Proof.
  intro Herr. revert w. induction ds as [ | d ds IH]; intro w.
  - reflexivity.
  - rewrite general_register_loop_cons.
    pose proof (general_register_one_returns d w Herr) as H.
    destruct (General.register_one logger d w) as [[e | u] w'].
    + discriminate.
    + apply IH.
Qed.

(** A run of the loop attempts the definitions in order, up to the one,
    if any, at which the logger threw from the [catch] clause. *)
Lemma general_register_loop_attempts logger ds (w : World E) :
  exists done groups,
    Forall2 attempt done groups
    /\ calls (exec (General.register_loop ds logger) w)
       = calls w ++ List.concat groups
    /\ (exists rest, ds = done ++ rest)
    /\ (fst (General.register_loop ds logger w) = inr tt -> done = ds).
Proof.
  revert w. induction ds as [ | d ds IH]; intro w.
  - exists [], []. split; [constructor | ]. cbn.
    rewrite app_nil_r. split; [reflexivity | split; [now exists [] | reflexivity]].
  - destruct (general_register_one_attempt logger d w) as (g & Hg & Hc).
    unfold exec in *. rewrite general_register_loop_cons.
    destruct (General.register_one logger d w) as [[e | u] w'].
    + exists [d], [g]. split; [constructor; [exact Hg | constructor] | ].
      cbn [snd fst List.concat] in *. rewrite app_nil_r.
      split; [exact Hc | split; [now exists ds | discriminate]].
    + destruct (IH w') as (done & gs & Hgs & Hcs & (rest & Hrest) & Hall).
      exists (d :: done), (g :: gs).
      split; [constructor; assumption | ].
      cbn [snd] in Hc. rewrite Hcs, Hc. cbn [List.concat].
      rewrite app_assoc.
      split; [reflexivity | split].
      * exists rest. now rewrite Hrest.
      * intro H. now rewrite (Hall H).
Qed.

Lemma general_registerTemplates_constructed templates logger (w : World E) s :
  General.construct logger (store w) = (inr tt, s) ->
  General.registerTemplates templates logger w =
  General.register_loop templates logger
    {| store := s; calls := calls w; log := log w |}.
Proof.
  intro H.
  unfold General.registerTemplates, bind, General.new_EmailTemplateRepository.
  rewrite H. reflexivity.
Qed.

Lemma general_registerTemplates_not_constructed
    templates logger (w : World E) e s :
  General.construct logger (store w) = (inl e, s) ->
  General.registerTemplates templates logger w =
  (inl e, {| store := s; calls := calls w; log := log w |}).
Proof.
  intro H.
  unfold General.registerTemplates, bind, General.new_EmailTemplateRepository.
  rewrite H. reflexivity.
Qed.

End GeneralFacts.

Section GeneralClaims.
Context {E : Type} {C : General.Collaborators E}.

Local Open Scope nat_scope.

(** C4. When the repository is constructed and the error calls of the
    logger return, as they do when no logger is passed, the calls of a
    run are one attempt per definition, in the order of the batch,
    whatever [findMany], [createTemplate] and the debug calls of the
    logger do: after a call that threw, every later definition is still
    queried, and an insert follows each query that found nothing. *)
Theorem every_definition_is_attempted templates logger (w : World E) s :
  General.construct logger (store w) = (inr tt, s) ->
  General.returns logger Error ->
  exists groups,
    Forall2 attempt templates groups
    /\ calls (exec (General.registerTemplates templates logger) w) =
       calls w ++ List.concat groups
    /\ find_requests (List.concat groups) =
       map (fun d => existence_query (TemplateDefinition.metadata d)) templates.
Proof.
  intros Hnew Herr. unfold exec.
  rewrite (general_registerTemplates_constructed templates logger w Hnew).
  set (v := {| store := s; calls := calls w; log := log w |}).
  destruct (general_register_loop_attempts logger templates v)
    as (done & groups & Hgroups & Hcalls & _ & Hall).
  rewrite (Hall (general_register_loop_returns templates v Herr)) in Hgroups.
  exists groups. split; [exact Hgroups | split; [exact Hcalls | ]].
  now apply attempts_query_each.
Qed.

(** C9. When the repository is constructed and the error calls of the
    logger return, as they do when no logger is passed,
    [registerTemplates] returns normally whatever [findMany],
    [createTemplate] and the debug calls of the logger do. *)
Theorem registerTemplates_returns_unless_logging_fails
    templates logger (w : World E) s :
  General.construct logger (store w) = (inr tt, s) ->
  General.returns logger Error ->
  fst (General.registerTemplates templates logger w) = inr tt.
Proof.
  intros Hnew Herr.
  rewrite (general_registerTemplates_constructed templates logger w Hnew).
  now apply general_register_loop_returns.
Qed.

End GeneralClaims.

(** ** What a run inserts, computed from the stored tags *)

Section InsertionPlan.
Variable tags_match : list jsstring -> list jsstring -> bool.

Local Notation tags_of d :=
  (TemplateMetadata.tags (TemplateDefinition.metadata d)).
Local Notation plan := (to_insert tags_match).
Local Notation matched stored d :=
  (existsb (fun t => tags_match t (tags_of d)) stored).

Lemma to_insert_In stored ds d : In d (plan stored ds) -> In d ds.
Proof.
  revert stored. induction ds as [ | d' ds IH]; intros stored; cbn [to_insert].
  - intros [].
  - destruct (matched stored d').
    + intro H. right. now apply IH with stored.
    + intros [-> | H]; [now left | right; now apply IH with (stored ++ [tags_of d'])].
Qed.

(** An inserted definition matches neither a stored tag list nor a
    definition inserted before it. *)
Lemma to_insert_unmatched stored ds :
  Forall (fun d => matched stored d = false) (plan stored ds)
  /\ ForallOrdPairs (fun a b => tags_match (tags_of a) (tags_of b) = false)
       (plan stored ds).
Proof.
  revert stored. induction ds as [ | d ds IH]; intro stored; cbn [to_insert].
  - split; constructor.
  - destruct (matched stored d) eqn:Hd; [apply IH | ].
    destruct (IH (stored ++ [tags_of d])) as (Hall & Hpairs).
    assert (Hsplit : Forall (fun b => matched stored b = false
                                      /\ tags_match (tags_of d) (tags_of b) = false)
                            (plan (stored ++ [tags_of d]) ds)).
    { apply Forall_impl with (2 := Hall). intros b Hb.
      rewrite existsb_app in Hb. apply orb_false_iff in Hb.
      destruct Hb as (Hb1 & Hb2). cbn in Hb2. rewrite orb_false_r in Hb2.
      split; assumption. }
    split.
    + constructor; [exact Hd | ].
      apply Forall_impl with (2 := Hsplit). now intros b (Hb & _).
    + constructor; [ | exact Hpairs].
      apply Forall_impl with (2 := Hsplit). now intros b (_ & Hb).
Qed.

(** Nothing is inserted when every definition is matched already. *)
Lemma to_insert_none stored ds :
  Forall (fun d => matched stored d = true) ds -> plan stored ds = [].
Proof.
  induction 1 as [ | d ds Hd _ IH]; cbn [to_insert]; [reflexivity | ].
  now rewrite Hd.
Qed.

Lemma to_insert_app stored ds1 ds2 :
  plan stored (ds1 ++ ds2) =
  plan stored ds1
  ++ plan (stored
           ++ map (fun d => TemplateMetadata.tags (TemplateDefinition.metadata d))
                  (plan stored ds1)) ds2.
Proof.
  revert stored. induction ds1 as [ | d ds1 IH]; intro stored; cbn [app to_insert].
  - cbn. now rewrite app_nil_r.
  - destruct (existsb _ stored); [apply IH | ].
    cbn [map app]. rewrite IH, <- app_assoc. reflexivity.
Qed.

Hypothesis same_tag_set_matches :
  forall stored queried,
    same_tag_set stored queried -> tags_match stored queried = true.

(** After the insertions every definition of the batch is matched. *)
Lemma to_insert_covers stored ds :
  Forall (fun d => matched (stored ++ map (fun d => tags_of d) (plan stored ds)) d
                   = true) ds.
Proof.
  revert stored. induction ds as [ | d ds IH]; intro stored; cbn [to_insert].
  - constructor.
  - destruct (matched stored d) eqn:Hd.
    + constructor; [ | apply IH].
      rewrite existsb_app, Hd. reflexivity.
    + cbn [map].
      replace (stored ++ tags_of d :: map (fun d => tags_of d)
                                         (plan (stored ++ [tags_of d]) ds))
        with ((stored ++ [tags_of d])
              ++ map (fun d => tags_of d) (plan (stored ++ [tags_of d]) ds))
        by now rewrite <- app_assoc.
      constructor; [ | apply IH].
      rewrite !existsb_app. cbn.
      rewrite (@same_tag_set_matches (tags_of d) (tags_of d)).
      * now rewrite orb_true_r.
      * intro x. reflexivity.
Qed.

Lemma to_insert_again stored ds :
  plan (stored ++ map (fun d => tags_of d) (plan stored ds)) ds = [].
Proof. apply to_insert_none, to_insert_covers. Qed.

End InsertionPlan.

(** ** Runs with collaborators that keep the contract *)

Section CooperativeRuns.
Context {E : Type} {C : General.Collaborators E}.
Variable records : E -> list EmailTemplate.t.
Variable tags_match : list jsstring -> list jsstring -> bool.
Context {Coop : Cooperative C records tags_match}.

Local Open Scope nat_scope.

Local Notation tags_of d :=
  (TemplateMetadata.tags (TemplateDefinition.metadata d)).
Local Notation present d db :=
  (existsb (matching tags_match
              (existence_query (TemplateDefinition.metadata d))) db).
Local Notation distinct_tag_sets :=
  (fun a b => ~ same_tag_set (NewEmailTemplate.tags a) (NewEmailTemplate.tags b)).
Local Notation quiet w :=
  (forallb (fun e => negb (is_error e)) (log w) = true).
Local Notation stored_tags s := (map EmailTemplate.tags (records s)).
Local Notation plan := (to_insert tags_match).

(** A logger call returns, and leaves records and calls as they are. *)
Lemma cooperative_emit (logger : option Logger) l ctx m (w : World E) :
  exists w',
    General.logger_emit logger l ctx m w = (inr tt, w')
    /\ records (store w') = records (store w)
    /\ calls w' = calls w
    /\ (l = Debug -> quiet w -> quiet w').
Proof.
  unfold General.logger_emit. destruct logger as [logger | ].
  - destruct (cooperative_logger l ctx (js m) (store w)) as (s' & Hs & Hr).
    rewrite Hs. eexists. split; [reflexivity | ]. cbn [store calls log].
    split; [exact Hr | split; [reflexivity | ]].
    intros -> Hq. rewrite forallb_app, Hq. reflexivity.
  - exists w. repeat split. intros _ Hq. exact Hq.
Qed.

Lemma cooperative_returns (logger : option Logger) l :
  General.returns logger l.
Proof.
  intros ctx m w.
  destruct (cooperative_emit logger l ctx m w) as (w' & H & _).
  now rewrite H.
Qed.

(** The existence query finds nothing exactly when no record matches. *)
Lemma cooperative_query_absent d s :
  fst (General.findMany (existence_query (TemplateDefinition.metadata d))
         first_only s) = inr []
  <-> present d (records s) = false.
Proof.
  destruct (cooperative_findMany
              (existence_query (TemplateDefinition.metadata d)) first_only s)
    as (s' & Hf & _).
  rewrite Hf. cbn [fst]. rewrite <- filter_nil_existsb, <- first_page_nil.
  split; [intro H; now injection H | intros ->; reflexivity].
Qed.

(** A turn whose tag set is present changes nothing in the store. *)
Lemma cooperative_turn_present logger d (w : World E) :
  present d (records (store w)) = true ->
  exists w',
    General.register_one logger d w = (inr tt, w')
    /\ records (store w') = records (store w)
    /\ create_requests (calls w') = create_requests (calls w)
    /\ (quiet w -> quiet w').
Proof.
  intros Hp. rewrite general_register_one_unfold. cbn zeta.
  destruct (cooperative_findMany
              (existence_query (TemplateDefinition.metadata d)) first_only
              (store w)) as (s' & Hf & Hs').
  rewrite Hf.
  destruct (filter _ (records (store w))) as [ | r rs] eqn:Hfilter.
  - apply filter_nil_existsb in Hfilter. congruence.
  - cbn [page first_only pagination limit offset skipn firstn].
    unfold try_catch, General.logger_debug.
    match goal with
    | |- context [General.logger_emit logger Debug ?ctx ?m ?v] =>
        destruct (cooperative_emit logger Debug ctx m v)
          as (w' & He & Hr & Hc & Hq)
    end.
    rewrite He. exists w'. split; [reflexivity | ].
    cbn [store calls log] in Hr, Hc, Hq.
    rewrite Hr, Hc, create_requests_app. cbn [create_requests].
    rewrite app_nil_r.
    split; [exact Hs' | split; [reflexivity | ]].
    intro H. now apply Hq.
Qed.

(** A turn whose tag set is absent appends the new record. *)
Lemma cooperative_turn_absent logger d (w : World E) :
  present d (records (store w)) = false ->
  exists w' r,
    General.register_one logger d w = (inr tt, w')
    /\ EmailTemplate.fields r = newTemplateOf d
    /\ records (store w') = records (store w) ++ [r]
    /\ create_requests (calls w') = create_requests (calls w) ++ [newTemplateOf d]
    /\ (quiet w -> quiet w').
Proof.
  intros Hp. rewrite general_register_one_unfold. cbn zeta.
  destruct (cooperative_findMany
              (existence_query (TemplateDefinition.metadata d)) first_only
              (store w)) as (s' & Hf & Hs').
  rewrite Hf.
  apply filter_nil_existsb in Hp. rewrite Hp.
  cbn [page first_only pagination limit offset skipn firstn].
  destruct (cooperative_createTemplate (newTemplateOf d) s')
    as (r & s'' & Hc & Hfields & Hs'').
  rewrite Hc. unfold try_catch, General.logger_debug.
  match goal with
  | |- context [General.logger_emit logger Debug ?ctx ?m ?v] =>
      destruct (cooperative_emit logger Debug ctx m v)
        as (w' & He & Hr & Hcs & Hq)
  end.
  rewrite He. exists w', r. split; [reflexivity | ].
  cbn [store calls log] in Hr, Hcs, Hq.
  rewrite Hr, Hcs, !create_requests_app. cbn [create_requests].
  rewrite app_nil_r.
  split; [exact Hfields | split; [now rewrite Hs'', Hs' | ]].
  split; [reflexivity | ].
  intro H. now apply Hq.
Qed.

Lemma present_as_stored_tags d (db : list EmailTemplate.t) :
  present d db
  = existsb (fun t => tags_match t (tags_of d)) (map EmailTemplate.tags db).
Proof. induction db as [ | r db IH]; cbn; [reflexivity | now rewrite IH]. Qed.

(** The loop returns, having inserted what [to_insert] computes from the
    stored tags. *)
Lemma cooperative_register_loop logger ds (w : World E) :
  exists w' created,
    General.register_loop ds logger w = (inr tt, w')
    /\ records (store w') = records (store w) ++ created
    /\ map EmailTemplate.fields created
       = map newTemplateOf (plan (stored_tags (store w)) ds)
    /\ create_requests (calls w')
       = create_requests (calls w)
         ++ map newTemplateOf (plan (stored_tags (store w)) ds)
    /\ (quiet w -> quiet w').
Proof.
  revert w. induction ds as [ | d ds IH]; intro w.
  - exists w, []. cbn. rewrite !app_nil_r. repeat split. auto.
  - rewrite general_register_loop_cons. cbn [to_insert].
    rewrite <- present_as_stored_tags.
    destruct (existsb _ (records (store w))) eqn:Hp.
    + destruct (cooperative_turn_present logger d w Hp)
        as (w1 & H1 & Hr & Hc & Hq).
      rewrite H1.
      destruct (IH w1) as (w' & created & Hrun & Hr' & Hf' & Hc' & Hq').
      exists w', created. rewrite Hr in Hr', Hf', Hc'. rewrite Hc in Hc'.
      repeat (split; [assumption | ]). auto.
    + destruct (cooperative_turn_absent logger d w Hp)
        as (w1 & r & H1 & Hfields & Hr & Hc & Hq).
      rewrite H1.
      destruct (IH w1) as (w' & created & Hrun & Hr' & Hf' & Hc' & Hq').
      assert (Htags : stored_tags (store w1)
                      = stored_tags (store w) ++ [tags_of d]).
      { rewrite Hr, map_app. cbn. unfold EmailTemplate.tags at 2.
        now rewrite Hfields. }
      rewrite Htags in Hf', Hc'.
      exists w', (r :: created).
      split; [exact Hrun | ].
      split; [rewrite Hr', Hr, <- app_assoc; reflexivity | ].
      split; [cbn [map]; now rewrite Hfields, Hf' | ].
      split; [rewrite Hc', Hc, <- app_assoc; reflexivity | auto].
Qed.

Lemma cooperative_registerTemplates templates logger (w : World E) :
  exists w' created,
    General.registerTemplates templates logger w = (inr tt, w')
    /\ records (store w') = records (store w) ++ created
    /\ map EmailTemplate.fields created
       = map newTemplateOf (plan (stored_tags (store w)) templates)
    /\ create_requests (calls w')
       = create_requests (calls w)
         ++ map newTemplateOf (plan (stored_tags (store w)) templates)
    /\ (quiet w -> quiet w').
Proof.
  destruct (cooperative_construct logger (store w)) as (s & Hnew & Hs).
  rewrite (general_registerTemplates_constructed templates logger w Hnew).
  destruct (cooperative_register_loop logger templates
              {| store := s; calls := calls w; log := log w |})
    as (w' & created & Hrun & Hr & Hf & Hc & Hq).
  cbn [store calls log] in Hr, Hf, Hc, Hq. rewrite Hs in Hr, Hf, Hc.
  exists w', created. repeat (split; [assumption | ]). exact Hq.
Qed.

Lemma stored_tags_after (db created : list EmailTemplate.t) ds :
  map EmailTemplate.fields created = map newTemplateOf ds ->
  map EmailTemplate.tags (db ++ created)
  = map EmailTemplate.tags db ++ map (fun d => tags_of d) ds.
Proof.
  intro H. rewrite map_app. f_equal.
  change (map EmailTemplate.tags created)
    with (map (fun r => NewEmailTemplate.tags (EmailTemplate.fields r)) created).
  rewrite <- (map_map EmailTemplate.fields NewEmailTemplate.tags), H, map_map.
  reflexivity.
Qed.

Lemma unmatched_not_same stored d t :
  existsb (fun t => tags_match t (tags_of d)) stored = false ->
  In t stored -> ~ same_tag_set t (tags_of d).
Proof.
  intros Hd Hin Hsame. apply cooperative_match in Hsame.
  assert (existsb (fun t => tags_match t (tags_of d)) stored = true) as Ht.
  { apply existsb_exists. exists t. split; assumption. }
  congruence.
Qed.

(** The records a run inserts carry pairwise different tag sets, none of
    them the tag set of a record stored before. *)
Lemma plan_inserts_once stored ds :
  ForallOrdPairs distinct_tag_sets (map newTemplateOf (plan stored ds))
  /\ Forall (fun t => forall tags, In tags stored ->
                        ~ same_tag_set tags (NewEmailTemplate.tags t))
            (map newTemplateOf (plan stored ds)).
Proof.
  destruct (to_insert_unmatched tags_match stored ds) as (Hall & Hpairs).
  split.
  - clear Hall. induction Hpairs as [ | a l Ha _ IH]; cbn [map]; constructor.
    + apply Forall_map. apply Forall_impl with (2 := Ha).
      intros b Hb Hsame. apply cooperative_match in Hsame.
      cbn in Hsame. congruence.
    + exact IH.
  - apply Forall_map. apply Forall_impl with (2 := Hall).
    intros d Hd tags Hin. now apply unmatched_not_same with stored.
Qed.


Lemma same_tag_set_sym a b : same_tag_set a b -> same_tag_set b a.
Proof. intros H x. symmetry. apply H. Qed.


End CooperativeRuns.

(** ** Section [Registrar] as a case of module [General] *)

Section ReturningLoggerFacts.
Context {Db : Type} (Repo : EmailTemplateRepository Db).

Lemma ReturningLogger_register_one logger d (w : World Db) :
  @General.register_one _ (ReturningLogger Repo) logger d w
  = register_one logger d w.
Proof.
  rewrite general_register_one_unfold, register_one_unfold. cbn zeta.
  cbn [ReturningLogger General.findMany General.createTemplate].
  destruct (findMany _ first_only (store w)) as [[e | [ | r rs]] s].
  - destruct logger; reflexivity.
  - destruct (createTemplate _ s) as [[e | created] s'];
      destruct logger; reflexivity.
  - destruct logger; reflexivity.
Qed.

Lemma ReturningLogger_register_loop logger ds (w : World Db) :
  @General.register_loop _ (ReturningLogger Repo) ds logger w
  = register_loop ds logger w.
Proof.
  revert w. induction ds as [ | d ds IH]; intro w; [reflexivity | ].
  rewrite general_register_loop_cons, register_loop_cons,
    ReturningLogger_register_one, register_one_exec.
  apply IH.
Qed.

(** With a repository that takes no notice of the logger and a logger
    that returns, [General.registerTemplates] is [registerTemplates]. *)
Lemma ReturningLogger_registerTemplates templates logger (w : World Db) :
  @General.registerTemplates _ (ReturningLogger Repo) templates logger w
  = registerTemplates templates logger w.
Proof.
  unfold General.registerTemplates, registerTemplates, bind,
    General.new_EmailTemplateRepository, new_EmailTemplateRepository.
  cbn [ReturningLogger General.construct].
  destruct (construct (store w)) as [[e | []] s]; [reflexivity | ].
  apply ReturningLogger_register_loop.
Qed.

Lemma ReturningLogger_registerAuthTemplates tags src logger (w : World Db) :
  @General.registerAuthTemplates _ (ReturningLogger Repo) tags src logger w
  = registerAuthTemplates tags src logger w.
Proof.
  unfold General.registerAuthTemplates, registerAuthTemplates, bind.
  replace (General.logger_debug logger CtxNone
             "Registering auth module email templates" w)
    with (logger_debug logger CtxNone
            "Registering auth module email templates" w)
    by (destruct logger; reflexivity).
  destruct (logger_debug logger CtxNone _ w) as [[e | []] w1]; [reflexivity | ].
  rewrite ReturningLogger_registerTemplates.
  destruct (registerTemplates _ logger w1) as [[e | []] w2]; [reflexivity | ].
  destruct logger; reflexivity.
Qed.

Lemma ReturningLogger_cooperative records tags_match :
  PersistenceContract Repo records tags_match ->
  Cooperative (ReturningLogger Repo) records tags_match.
Proof.
  intro Contract. constructor; cbn [ReturningLogger General.construct
    General.findMany General.createTemplate General.logger_call].
  - intros _. apply construct_opens.
  - apply findMany_returns_matches.
  - apply createTemplate_appends.
  - intros _ _ _ s. exists s. split; reflexivity.
  - apply same_tag_set_matches.
Qed.

End ReturningLoggerFacts.

(** ** The claims at concrete inputs *)

Lemma jsstring_eqb_refl (a : jsstring) : jsstring_eqb a a = true.
Proof. unfold jsstring_eqb. destruct (jsstring_eq_dec a a); congruence. Qed.

Lemma tags_subset_incl (a b : list jsstring) :
  (forall x, In x a -> In x b) -> tags_subset a b = true.
Proof.
  intro H. apply forallb_forall. intros x Hx.
  apply existsb_exists. exists x. split; [now apply H | ].
  apply jsstring_eqb_refl.
Qed.

Lemma match_contains_same stored queried :
  same_tag_set stored queried -> match_contains stored queried = true.
Proof. intro H. apply tags_subset_incl. intros x Hx. now apply H. Qed.

Lemma match_same_set_same stored queried :
  same_tag_set stored queried -> match_same_set stored queried = true.
Proof.
  intro H. unfold match_same_set.
  rewrite !tags_subset_incl; [reflexivity | | ]; intros x Hx; now apply H.
Qed.

Lemma jsstring_eqb_eq (a b : jsstring) : jsstring_eqb a b = true -> a = b.
Proof.
  unfold jsstring_eqb. destruct (jsstring_eq_dec a b); [trivial | discriminate].
Qed.

Lemma tags_subset_sound (a b : list jsstring) :
  tags_subset a b = true -> forall x, In x a -> In x b.
Proof.
  intros H x Hx. unfold tags_subset in H.
  rewrite forallb_forall in H. specialize (H x Hx).
  apply existsb_exists in H. destruct H as (y & Hy & Heq).
  apply jsstring_eqb_eq in Heq. now subst.
Qed.

Lemma match_same_set_sound stored queried :
  match_same_set stored queried = true -> same_tag_set stored queried.
Proof.
  unfold match_same_set. intro H. apply andb_true_iff in H.
  destruct H as (Hq & Hs). intro x. split.
  - now apply tags_subset_sound.
  - now apply tags_subset_sound.
Qed.



(** A run in which the first insert and the second query throw, and so
    do the debug calls of the logger. *)
Lemma every_definition_is_attempted_witness :
  let C := FaultyCollaborators debug_level match_contains in
  let logger := Some StructuredLogger in
  let w := fresh (fixture [false; true; true] [true; true] []) in
  let batch := [verify_email; password_reset; welcome] in
  (@General.construct _ C logger (store w) = (inr tt, store w)
   /\ @General.returns _ C logger Error)
  /\ exists groups,
       Forall2 attempt batch groups
       /\ calls (exec (@General.registerTemplates _ C batch logger) w) =
          calls w ++ List.concat groups
       /\ find_requests (List.concat groups) =
          map (fun d => existence_query (TemplateDefinition.metadata d)) batch.
Proof.
  intros C logger w batch.
  assert (Hnew : @General.construct _ C logger (store w) = (inr tt, store w))
    by reflexivity.
  assert (Herr : @General.returns _ C logger Error)
    by (intros ctx m v; reflexivity).
  split; [split; [exact Hnew | exact Herr] | ].
  exact (@every_definition_is_attempted _ C batch logger w (store w) Hnew Herr).
Defined.

Example faulty_run_calls :
  let C := FaultyCollaborators debug_level match_contains in
  let q d := existence_query (TemplateDefinition.metadata d) in
  let failed := Thrown (js "connection lost") in
  let run := @General.registerTemplates _ C
               [verify_email; password_reset; welcome] (Some StructuredLogger)
               (fresh (fixture [false; true; true] [true; true] [])) in
  fst run = inr tt
  /\ calls (snd run)
     = [ CFindMany (q verify_email) first_only (inr []);
         CCreateTemplate (newTemplateOf verify_email) (inl failed);
         CFindMany (q password_reset) first_only (inl failed);
         CFindMany (q welcome) first_only (inr []);
         CCreateTemplate (newTemplateOf welcome)
           (inr {| EmailTemplate.id := js "tpl_0";
                   EmailTemplate.fields := newTemplateOf welcome |}) ]
  /\ map is_error (log (snd run)) = [true; true; false; true].
Proof. repeat split. Qed.

(** C4 as it is worded does not hold: the [catch] clause calls the logger
    unguarded.  Here the first query throws, the error call that reports
    it throws as well, and the two later definitions are never queried. *)
Lemma failed_error_log_abandons_the_batch :
  let C := FaultyCollaborators every_level match_contains in
  let logger := Some StructuredLogger in
  let w := fresh (fixture [true] [true] []) in
  let batch := [verify_email; password_reset; welcome] in
  let run := @General.registerTemplates _ C batch logger w in
  let q d := existence_query (TemplateDefinition.metadata d) in
  @General.construct _ C logger (store w) = (inr tt, store w)
  /\ calls (snd run)
     = [CFindMany (q verify_email) first_only
          (inl (Thrown (js "connection lost")))]
  /\ fst run = inl (Thrown (js "logger failed"))
  /\ ~ exists groups,
         Forall2 attempt batch groups
         /\ calls (snd run) = calls w ++ List.concat groups.
Proof.
  intros C logger w batch run q.
  split; [reflexivity | split; [reflexivity | split; [reflexivity | ]]].
  intros (groups & Hgroups & Hcalls).
  apply (f_equal find_requests) in Hcalls.
  cbn [calls w fresh app] in Hcalls.
  rewrite (attempts_query_each Hgroups) in Hcalls.
  discriminate Hcalls.
Qed.

Example scripted_run_calls :
  let q d := existence_query (TemplateDefinition.metadata d) in
  let failed := Thrown (js "connection lost") in
  calls (exec (@registerTemplates _ ScriptedStore
                 [verify_email; password_reset; welcome] None)
              (fresh ([false; true; true], [])))
  = [ CFindMany (q verify_email) first_only (inr []);
      CCreateTemplate (newTemplateOf verify_email) (inl failed);
      CFindMany (q password_reset) first_only (inl failed);
      CFindMany (q welcome) first_only (inr []);
      CCreateTemplate (newTemplateOf welcome)
        (inr {| EmailTemplate.id := js "tpl_0";
                EmailTemplate.fields := newTemplateOf welcome |}) ].
Proof. reflexivity. Qed.

Lemma registerTemplates_returns_witness :
  let C := FaultyCollaborators debug_level match_contains in
  let logger := Some StructuredLogger in
  let w := fresh (fixture [true; false; true; false] [true; true] []) in
  let batch := [verify_email; password_reset; welcome] in
  (@General.construct _ C logger (store w) = (inr tt, store w)
   /\ @General.returns _ C logger Error)
  /\ fst (@General.registerTemplates _ C batch logger w) = inr tt.
Proof.
  intros C logger w batch.
  assert (Hnew : @General.construct _ C logger (store w) = (inr tt, store w))
    by reflexivity.
  assert (Herr : @General.returns _ C logger Error)
    by (intros ctx m v; reflexivity).
  split; [split; [exact Hnew | exact Herr] | ].
  exact (@registerTemplates_returns_unless_logging_fails _ C batch logger w
           (store w) Hnew Herr).
Defined.

(** C9 as it is worded does not hold: the constructor succeeds, an insert
    throws, and so does the error call that reports it. *)
Lemma registerTemplates_throws_when_the_logger_throws :
  let C := FaultyCollaborators every_level match_contains in
  let logger := Some StructuredLogger in
  let w := fresh (fixture [false; true] [true] []) in
  let run := @General.registerTemplates _ C [verify_email; password_reset]
               logger w in
  @General.construct _ C logger (store w) = (inr tt, store w)
  /\ create_requests (calls (snd run)) = [newTemplateOf verify_email]
  /\ fst run = inl (Thrown (js "logger failed")).
Proof. repeat split. Qed.

(** A constructor that throws is not caught either. *)
Example registerTemplates_rethrows_constructor_failure :
  fst (@registerTemplates _ BrokenStore [verify_email] None (fresh tt))
  = inl (Thrown (js "no database")).
Proof. reflexivity. Qed.



Example auth_templates_are_registered_once :
  let St := MemoryStore match_contains in
  let run := @registerAuthTemplates _ St sample_tags sample_sources
               (Some StructuredLogger) in
  let w1 := exec run (fresh []) in
  let w2 := exec run (fresh (store w1)) in
  map NewEmailTemplate.subject (create_requests (calls w1))
  = [js "Verify your email address"; js "Reset your password";
     js "Your verification code"; js "Welcome to Monobase!"]
  /\ create_requests (calls w2) = []
  /\ store w2 = store w1.
Proof. repeat split. Qed.

Example registrar_first_run_inserts :
  create_requests
    (calls (exec (@registerTemplates _ (MemoryStore match_contains)
                    [verify_email; verify_email_v2; password_reset] None)
                 (fresh [])))
  = [newTemplateOf verify_email; newTemplateOf password_reset].
Proof. reflexivity. Qed.



Example same_tags_run_log :
  map msg
    (log (exec (@registerTemplates _ (MemoryStore match_same_set)
                  [verify_email; verify_email_v2] (Some StructuredLogger))
               (fresh [])))
  = [js "Email template registered"; js "Template already exists, skipping"].
Proof. reflexivity. Qed.

(** * Properties of the build-constants pipeline *)

Section BuildConstantsFacts.
Local Open Scope N_scope.

Ltac split_comparisons :=
  repeat match goal with
    | |- context [?a =? ?b] => destruct (N.eqb_spec a b)
    | |- context [?a <=? ?b] => destruct (N.leb_spec a b)
    | |- context [?a <? ?b] => destruct (N.ltb_spec a b)
    end.

Lemma hex_value_hex_digit d : d < 16 -> hex_value (hex_digit d) = Some d.
Proof.
  intro H. unfold hex_value, hex_digit.
  split_comparisons; cbn [andb]; try lia; f_equal; lia.
Qed.

Lemma sixteen_digits c :
  c < 65536 ->
  let d3 := c / 4096 in
  let d2 := (c / 256) mod 16 in
  let d1 := (c / 16) mod 16 in
  let d0 := c mod 16 in
  d3 < 16 /\ d2 < 16 /\ d1 < 16 /\ d0 < 16
  /\ ((d3 * 16 + d2) * 16 + d1) * 16 + d0 = c.
Proof.
  intros H d3 d2 d1 d0. subst d3 d2 d1 d0.
  change 4096 with (16 * 16 * 16). change 256 with (16 * 16).
  rewrite <- !N.Div0.div_div.
  pose proof (N.div_mod c 16) as E0.
  pose proof (N.div_mod (c / 16) 16) as E1.
  pose proof (N.div_mod (c / 16 / 16) 16) as E2.
  pose proof (N.mod_upper_bound c 16) as B0.
  pose proof (N.mod_upper_bound (c / 16) 16) as B1.
  pose proof (N.mod_upper_bound (c / 16 / 16) 16) as B2.
  generalize dependent (c mod 16). generalize dependent ((c / 16) mod 16).
  generalize dependent ((c / 16 / 16) mod 16).
  generalize dependent (c / 16 / 16 / 16).
  generalize dependent (c / 16 / 16). generalize dependent (c / 16).
  intros. lia.
Qed.

Lemma hex4_UnicodeEscape c :
  c < 65536 ->
  hex4 (hex_digit (c / 4096)) (hex_digit ((c / 256) mod 16))
       (hex_digit ((c / 16) mod 16)) (hex_digit (c mod 16)) = Some c.
Proof.
  intro H. destruct (@sixteen_digits c H) as (H3 & H2 & H1 & H0 & E).
  unfold hex4. rewrite !hex_value_hex_digit by assumption.
  f_equal. exact E.
Qed.

Lemma JSON_string_characters_quote_code_unit c t :
  JSON_string_characters (quote_code_unit c ++ t) =
  consume c (JSON_string_characters t).
Proof.
  unfold quote_code_unit.
  destruct (N.eqb_spec c 8); [subst; reflexivity | ].
  destruct (N.eqb_spec c 9); [subst; reflexivity | ].
  destruct (N.eqb_spec c 10); [subst; reflexivity | ].
  destruct (N.eqb_spec c 12); [subst; reflexivity | ].
  destruct (N.eqb_spec c 13); [subst; reflexivity | ].
  destruct (N.eqb_spec c 34); [subst; reflexivity | ].
  destruct (N.eqb_spec c 92); [subst; reflexivity | ].
  destruct ((c <? 32) || is_leading_surrogate c || is_trailing_surrogate c)
    eqn:Hesc.
  - assert (c < 65536) as Hc.
    { unfold is_leading_surrogate, is_trailing_surrogate in Hesc.
      revert Hesc. split_comparisons; cbn; intro; try discriminate; lia. }
    unfold UnicodeEscape. cbn [app JSON_string_characters].
    change (92 =? 34) with false. change (92 =? 92) with true.
    change (117 =? 117) with true. cbv iota.
    now rewrite hex4_UnicodeEscape.
  - apply orb_false_iff in Hesc. destruct Hesc as [Hesc _].
    apply orb_false_iff in Hesc. destruct Hesc as [Hlow _].
    cbn [app JSON_string_characters].
    rewrite Hlow.
    destruct (N.eqb_spec c 34); [contradiction | ].
    destruct (N.eqb_spec c 92); [contradiction | ].
    reflexivity.
Qed.

Lemma JSON_string_characters_surrogate c t :
  is_leading_surrogate c || is_trailing_surrogate c = true ->
  JSON_string_characters (c :: t) = consume c (JSON_string_characters t).
Proof.
  intro H. cbn [JSON_string_characters].
  assert (55296 <= c) as Hc.
  { unfold is_leading_surrogate, is_trailing_surrogate in H.
    revert H. split_comparisons; cbn; intro; try discriminate; lia. }
  destruct (N.eqb_spec c 34); [lia | ].
  destruct (N.eqb_spec c 92); [lia | ].
  destruct (N.ltb_spec c 32); [lia | ].
  reflexivity.
Qed.

Lemma quote_code_points_two c d s :
  quote_code_points (c :: d :: s) =
  if is_leading_surrogate c && is_trailing_surrogate d
  then c :: d :: quote_code_points s
  else quote_code_unit c ++ quote_code_points (d :: s).
Proof. reflexivity. Qed.

Lemma JSON_string_characters_quote_bounded n :
  forall s rest,
    (List.length s <= n)%nat ->
    JSON_string_characters (quote_code_points s ++ 34 :: rest) = Some (s, rest).
Proof.
  induction n as [ | n IH]; intros s rest Hlen.
  - destruct s; [reflexivity | cbn in Hlen; lia].
  - destruct s as [ | c [ | d s']].
    + reflexivity.
    + cbn [quote_code_points].
      rewrite JSON_string_characters_quote_code_unit. reflexivity.
    + rewrite quote_code_points_two.
      destruct (is_leading_surrogate c && is_trailing_surrogate d) eqn:Hpair.
      * apply andb_true_iff in Hpair. destruct Hpair as [Hc Hd].
        cbn [app].
        rewrite (@JSON_string_characters_surrogate c) by (now rewrite Hc).
        rewrite (@JSON_string_characters_surrogate d)
          by (rewrite Hd; apply orb_true_r).
        rewrite IH by (cbn in Hlen; lia). reflexivity.
      * rewrite <- app_assoc, JSON_string_characters_quote_code_unit.
        rewrite IH by (cbn in Hlen |- *; lia). reflexivity.
Qed.

Lemma JSON_parse_string_JSON_stringify s :
  JSON_parse_string (JSON_stringify s) = Some s.
Proof.
  unfold JSON_stringify, QuoteJSONString, JSON_parse_string.
  cbn [skip_whitespace]. change (is_json_whitespace 34) with false. cbv iota.
  rewrite (@JSON_string_characters_quote_bounded (List.length s)) by lia.
  reflexivity.
Qed.

Lemma parseDefineArgs_constantsToDefineArgs (constants : BuildConstants) :
  parseDefineArgs (constantsToDefineArgs constants) =
  Some (Object_entries constants).
Proof.
  unfold constantsToDefineArgs, Object_entries.
  cbn [fold_left app].
  cbn [parseDefineArgs].
  repeat (change (jsstring_eqb (js "--define") (js "--define")) with true;
          cbv iota).
  cbn -[JSON_parse_string JSON_stringify].
  rewrite !JSON_parse_string_JSON_stringify.
  reflexivity.
Qed.

(** C5. Reading back the define arguments of a [BuildConstants] record
    yields its six field names, in order, each with the string it held. *)
Theorem define_arguments_round_trip (constants : BuildConstants) :
  parseDefineArgs (constantsToDefineArgs constants) =
  Some [ (js "BUILD_VERSION", BUILD_VERSION constants);
         (js "BUILD_TIME", BUILD_TIME constants);
         (js "BUILD_TIMESTAMP", BUILD_TIMESTAMP constants);
         (js "GIT_COMMIT", GIT_COMMIT constants);
         (js "GIT_BRANCH", GIT_BRANCH constants);
         (js "COMPILER_VERSION", COMPILER_VERSION constants) ].
Proof. apply parseDefineArgs_constantsToDefineArgs. Qed.

Example define_arguments_of_sample :
  constantsToDefineArgs sample_constants =
  [ js "--define"; js "BUILD_VERSION=" ++ [34] ++ js "1.4.2" ++ [34];
    js "--define";
    js "BUILD_TIME=" ++ [34] ++ js "January 1, 2025 at 12:00:00 AM UTC" ++ [34];
    js "--define";
    js "BUILD_TIMESTAMP=" ++ [34] ++ js "2025-01-01T00:00:00.000Z" ++ [34];
    js "--define";
    js "GIT_COMMIT=" ++ [34] ++ js "9fceb02d0ae598e95dc970b74767f19372d61af8"
                    ++ [34];
    js "--define";
    js "GIT_BRANCH=" ++ [34] ++ js "release/a=b" ++ [92; 92; 92; 34; 92; 110]
                    ++ [55357; 56832] ++ js "\ude00" ++ [34];
    js "--define"; js "COMPILER_VERSION=" ++ [34] ++ js "1.1.0" ++ [34] ].
Proof. reflexivity. Qed.

Lemma getGitCommit_value p :
  getGitCommit p =
  inr (if existsSync p (js ".git")
       then match shell_text p (js "git rev-parse HEAD") with
            | inr out => String_trim out
            | inl _ => unknown
            end
       else unknown).
Proof.
  unfold getGitCommit.
  destruct (existsSync p (js ".git")); [ | reflexivity].
  cbn [negb]. cbv iota.
  destruct (shell_text p (js "git rev-parse HEAD")); reflexivity.
Qed.

Lemma getGitBranch_value p :
  getGitBranch p =
  inr (if existsSync p (js ".git")
       then match shell_text p (js "git rev-parse --abbrev-ref HEAD") with
            | inr out => String_trim out
            | inl _ => unknown
            end
       else unknown).
Proof.
  unfold getGitBranch.
  destruct (existsSync p (js ".git")); [ | reflexivity].
  cbn [negb]. cbv iota.
  destruct (shell_text p (js "git rev-parse --abbrev-ref HEAD")); reflexivity.
Qed.

Lemma getPackageVersion_returns p : exists version, getPackageVersion p = inr version.
Proof.
  unfold getPackageVersion, try_, and_then.
  destruct (readFileSync p _) as [e | content]; [eexists; reflexivity | ].
  destruct (JSON_parse p content) as [e | packageJson]; [eexists; reflexivity | ].
  destruct (get_version packageJson) as [e | version]; eexists; reflexivity.
Qed.

(** The record is built from what the getters return, and is returned
    unless the version cannot be printed. *)
Lemma generateBuildConstants_value p :
  exists commit branch version,
    getGitCommit p = inr commit
    /\ getGitBranch p = inr branch
    /\ getPackageVersion p = inr version
    /\ generateBuildConstants p =
       match ToString version with
       | inr _ =>
           inr {| BUILD_VERSION := version;
                  BUILD_TIME := getBuildTime p;
                  BUILD_TIMESTAMP := getCurrentTimestamp p;
                  GIT_COMMIT := commit;
                  GIT_BRANCH := branch;
                  COMPILER_VERSION := getCompilerVersion p |}
       | inl e => inl e
       end.
Proof.
  destruct (getPackageVersion_returns p) as (version & Hv).
  eexists _, _, version.
  split; [apply getGitCommit_value | ].
  split; [apply getGitBranch_value | ].
  split; [exact Hv | ].
  unfold generateBuildConstants, Promise_all2.
  rewrite getGitCommit_value, getGitBranch_value, Hv.
  unfold and_then. cbn [BUILD_VERSION fst snd].
  destruct (ToString version); reflexivity.
Qed.

(** C6. When the manifest cannot be read, is not JSON, or parses to an
    object without a [version] key, [getPackageVersion] returns
    ["0.0.0"], and that is the [BUILD_VERSION] of the generated
    constants. *)
Theorem unreadable_manifest_yields_default_version p :
  let packagePath := path_join p (process_cwd p) (js "package.json") in
  let yields_default :=
    getPackageVersion p = inr (JString (js "0.0.0"))
    /\ exists constants,
         generateBuildConstants p = inr constants
         /\ BUILD_VERSION constants = JString (js "0.0.0") in
  (forall e, readFileSync p packagePath = inl e -> yields_default)
  /\ (forall content e,
        readFileSync p packagePath = inr content ->
        JSON_parse p content = inl e -> yields_default)
  /\ (forall content properties,
        readFileSync p packagePath = inr content ->
        JSON_parse p content = inr (JObject properties) ->
        own_property (js "version") properties = None -> yields_default).
Proof.
  intros packagePath yields_default.
  assert (Hgen : getPackageVersion p = inr (JString (js "0.0.0")) ->
                 yields_default).
  { intro Hv. split; [exact Hv | ].
    destruct (generateBuildConstants_value p)
      as (commit & branch & version & _ & _ & Hv' & Hg).
    rewrite Hv in Hv'. injection Hv' as <-.
    cbn [ToString] in Hg.
    eexists. split; [exact Hg | reflexivity]. }
  split; [ | split].
  - intros e Hread. apply Hgen.
    unfold getPackageVersion, try_, and_then. cbv zeta. fold packagePath.
    now rewrite Hread.
  - intros content e Hread Hparse. apply Hgen.
    unfold getPackageVersion, try_, and_then. cbv zeta. fold packagePath.
    rewrite Hread. cbv beta iota. now rewrite Hparse.
  - intros content properties Hread Hparse Habsent. apply Hgen.
    unfold getPackageVersion, try_, and_then. cbv zeta. fold packagePath.
    rewrite Hread. cbv beta iota. rewrite Hparse. cbv beta iota.
    unfold get_version. now rewrite Habsent.
Qed.

(** C7. The git lookups never throw: whatever the platform does,
    [getGitCommit] and [getGitBranch] return a string.  Without a [.git]
    directory both strings are ["unknown"]; a git query that fails leaves
    ["unknown"] in its own field; and a query that succeeds gives its
    trimmed output to its own field whatever the other query did.  These
    strings are the git fields of the record whenever
    [generateBuildConstants] returns one, which it does whenever the
    version can be printed; an exception that escapes it is the one
    raised by printing the version, never one of a git lookup. *)
Theorem git_lookups_fall_back_to_unknown p :
  let commit_query := shell_text p (js "git rev-parse HEAD") in
  let branch_query := shell_text p (js "git rev-parse --abbrev-ref HEAD") in
  exists commit branch,
    getGitCommit p = inr commit
    /\ getGitBranch p = inr branch
    /\ (existsSync p (js ".git") = false ->
        commit = js "unknown" /\ branch = js "unknown")
    /\ (forall e, commit_query = inl e -> commit = js "unknown")
    /\ (forall e, branch_query = inl e -> branch = js "unknown")
    /\ (forall out, existsSync p (js ".git") = true ->
                    commit_query = inr out ->
                    commit = String_trim out)
    /\ (forall out, existsSync p (js ".git") = true ->
                    branch_query = inr out ->
                    branch = String_trim out)
    /\ (forall constants,
          generateBuildConstants p = inr constants ->
          GIT_COMMIT constants = commit /\ GIT_BRANCH constants = branch)
    /\ (forall version,
          getPackageVersion p = inr version -> ToString version = inr tt ->
          exists constants, generateBuildConstants p = inr constants)
    /\ (forall e,
          generateBuildConstants p = inl e ->
          exists version,
            getPackageVersion p = inr version /\ ToString version = inl e).
Proof.
  intros commit_query branch_query.
  destruct (generateBuildConstants_value p)
    as (commit & branch & version & Hc & Hb & Hv & Hg).
  exists commit, branch.
  split; [exact Hc | split; [exact Hb | ]].
  rewrite getGitCommit_value in Hc. rewrite getGitBranch_value in Hb.
  injection Hc as Hc. injection Hb as Hb.
  fold commit_query in Hc. fold branch_query in Hb.
  split; [ | split; [ | split; [ | split; [ | split; [ | split; [ | split]]]]]].
  - intro Hgit. rewrite Hgit in Hc, Hb. now subst.
  - intros e He. rewrite He in Hc. subst commit.
    now destruct (existsSync p (js ".git")).
  - intros e He. rewrite He in Hb. subst branch.
    now destruct (existsSync p (js ".git")).
  - intros out Hgit Hout. rewrite Hgit, Hout in Hc. now subst.
  - intros out Hgit Hout. rewrite Hgit, Hout in Hb. now subst.
  - intros constants Hgen. rewrite Hg in Hgen.
    destruct (ToString version); [discriminate | ].
    injection Hgen as <-. split; reflexivity.
  - intros version' Hv' Hprint. rewrite Hv in Hv'. injection Hv' as <-.
    rewrite Hprint in Hg. eexists. exact Hg.
  - intros e Hgen. rewrite Hg in Hgen. exists version.
    split; [exact Hv | ].
    destruct (ToString version) as [e' | u]; [ | discriminate].
    congruence.
Qed.

Lemma unreadable_manifest_witness :
  let unreadable := sample_platform false (inl ShellError) (inl ShellError)
                      (inl ENOENT) [] in
  let not_json := sample_platform false (inl ShellError) (inl ShellError)
                    (inr (js "{ version: ")) [] in
  let no_version := sample_platform false (inl ShellError) (inl ShellError)
                      (inr manifest_without_version)
                      [(manifest_without_version, parsed_without_version)] in
  let packagePath := js "/srv/api/package.json" in
  (readFileSync unreadable packagePath = inl ENOENT
   /\ getPackageVersion unreadable = inr (JString (js "0.0.0")))
  /\ (readFileSync not_json packagePath = inr (js "{ version: ")
      /\ JSON_parse not_json (js "{ version: ") = inl SyntaxError
      /\ getPackageVersion not_json = inr (JString (js "0.0.0")))
  /\ (readFileSync no_version packagePath = inr manifest_without_version
      /\ JSON_parse no_version manifest_without_version
         = inr parsed_without_version
      /\ own_property (js "version") [(js "name", JString (js "api"))] = None
      /\ getPackageVersion no_version = inr (JString (js "0.0.0"))).
Proof.
  intros unreadable not_json no_version packagePath.
  assert (H1 : readFileSync unreadable packagePath = inl ENOENT)
    by reflexivity.
  assert (H2 : readFileSync not_json packagePath = inr (js "{ version: "))
    by reflexivity.
  assert (H2' : JSON_parse not_json (js "{ version: ") = inl SyntaxError)
    by reflexivity.
  assert (H3 : readFileSync no_version packagePath
               = inr manifest_without_version) by reflexivity.
  assert (H3' : JSON_parse no_version manifest_without_version
                = inr parsed_without_version) by reflexivity.
  assert (H3'' : own_property (js "version") [(js "name", JString (js "api"))]
                 = None) by reflexivity.
  split; [ | split].
  - split; [exact H1 | ].
    exact (proj1 (proj1 (unreadable_manifest_yields_default_version unreadable)
                    ENOENT H1)).
  - split; [exact H2 | split; [exact H2' | ]].
    exact (proj1 (proj1 (proj2
             (unreadable_manifest_yields_default_version not_json))
             (js "{ version: ") SyntaxError H2 H2')).
  - split; [exact H3 | split; [exact H3' | split; [exact H3'' | ]]].
    exact (proj1 (proj2 (proj2
             (unreadable_manifest_yields_default_version no_version))
             manifest_without_version _ H3 H3' H3'')).
Defined.

(** Outside those three cases the declared version is used as it is,
    unless it is falsy. *)
Example declared_version_is_returned :
  let manifest := js "{ version }" in
  let declares v := sample_platform false (inl ShellError) (inl ShellError)
                      (inr manifest) [(manifest, JObject [(js "version", v)])] in
  getPackageVersion (declares (JString (js "2.1.0"))) = inr (JString (js "2.1.0"))
  /\ getPackageVersion (declares (JNumber (S754_finite false 3 0)))
     = inr (JNumber (S754_finite false 3 0))
  /\ getPackageVersion (declares (JString [])) = inr (JString (js "0.0.0"))
  /\ getPackageVersion (declares JNull) = inr (JString (js "0.0.0")).
Proof. repeat split. Qed.

Lemma git_lookups_fall_back_witness :
  let p := sample_platform true (inl ShellError) (inr (js "main" ++ [10]))
             (inl ENOENT) [] in
  (existsSync p (js ".git") = true
   /\ shell_text p (js "git rev-parse HEAD") = inl ShellError
   /\ shell_text p (js "git rev-parse --abbrev-ref HEAD")
      = inr (js "main" ++ [10])
   /\ getPackageVersion p = inr (JString (js "0.0.0")))
  /\ getGitCommit p = inr (js "unknown")
  /\ getGitBranch p = inr (js "main")
  /\ exists constants,
       generateBuildConstants p = inr constants
       /\ GIT_COMMIT constants = js "unknown"
       /\ GIT_BRANCH constants = js "main".
Proof.
  intro p.
  assert (Hgit : existsSync p (js ".git") = true) by reflexivity.
  assert (Hcommit : shell_text p (js "git rev-parse HEAD") = inl ShellError)
    by reflexivity.
  assert (Hbranch : shell_text p (js "git rev-parse --abbrev-ref HEAD")
                    = inr (js "main" ++ [10])) by reflexivity.
  assert (Hversion : getPackageVersion p = inr (JString (js "0.0.0")))
    by reflexivity.
  split; [split; [exact Hgit
                 | split; [exact Hcommit | split; [exact Hbranch | exact Hversion]]]
         | ].
  destruct (git_lookups_fall_back_to_unknown p)
    as (commit & branch & Hc & Hb & _ & Hc' & _ & _ & Hb' & Hfields & Hret & _).
  rewrite (Hc' ShellError Hcommit) in Hc, Hfields.
  rewrite (Hb' (js "main" ++ [10]) Hgit Hbranch) in Hb, Hfields.
  split; [exact Hc | split; [exact Hb | ]].
  destruct (Hret (JString (js "0.0.0")) Hversion eq_refl) as (constants & Hg).
  exists constants. split; [exact Hg | ].
  exact (Hfields constants Hg).
Defined.

(** A manifest whose version is an object that hides [toString]: the git
    lookups return, and the exception of the console line escapes. *)
Example unprintable_version_escapes :
  let manifest := js "{ version }" in
  let version := JObject [(js "toString", JNull)] in
  let p := sample_platform true (inr (js "abc")) (inr (js "main"))
             (inr manifest) [(manifest, JObject [(js "version", version)])] in
  getGitCommit p = inr (js "abc")
  /\ getGitBranch p = inr (js "main")
  /\ getPackageVersion p = inr version
  /\ generateBuildConstants p = inl TypeError.
Proof. repeat split. Qed.

(** Arrays print through their elements, plain objects as they are. *)
Example ToString_of_parsed_values :
  ToString (JArray [JNumber (S754_finite false 1 0); JNull; JArray []]) = inr tt
  /\ ToString (JObject [(js "major", JNumber (S754_finite false 1 0))]) = inr tt
  /\ ToString (JArray [JString (js "1"); JObject [(js "toString", JBool true)]])
     = inl TypeError.
Proof. repeat split. Qed.

Example no_git_directory :
  let p := sample_platform false (inr (js "abc")) (inr (js "main"))
             (inr manifest_without_version)
             [(manifest_without_version, parsed_without_version)] in
  generateBuildConstants p =
  inr {| BUILD_VERSION := JString (js "0.0.0");
         BUILD_TIME := js "January 1, 2025 at 12:00:00 AM UTC";
         BUILD_TIMESTAMP := js "2025-01-01T00:00:00.000Z";
         GIT_COMMIT := js "unknown";
         GIT_BRANCH := js "unknown";
         COMPILER_VERSION := js "1.1.0" |}.
Proof. reflexivity. Qed.

End BuildConstantsFacts.

(** * Further properties of the registrar *)

Section RegistrarRuns.
Context {Db : Type} {Repo : EmailTemplateRepository Db}.

Local Open Scope nat_scope.

Local Notation said logger entries :=
  (match logger with Some _ => entries | None => [] end).

Lemma logger_emit_log (logger : option Logger) l ctx m (w : World Db) :
  log (snd (logger_emit logger l ctx m w)) =
  log w ++ said logger [{| level := l; context := ctx; msg := js m |}].
Proof. destruct logger; cbn; [reflexivity | now rewrite app_nil_r]. Qed.

Lemma turn_counts d group entry :
  turn d group entry ->
  List.length (filter call_failed group) = (if is_error entry then 1 else 0)
  /\ 1 <= List.length group <= 2
  /\ List.length (find_requests group) = 1
  /\ List.length (create_requests group) <= 1.
Proof. intros []; cbn; repeat split; lia. Qed.

Lemma turns_counts ds (turns : list (list Call * LogEntry)) :
  Forall2 (fun d t => turn d (fst t) (snd t)) ds turns ->
  let new_calls := List.concat (map fst turns) in
  List.length turns = List.length ds
  /\ List.length (filter call_failed new_calls)
     = List.length (filter is_error (map snd turns))
  /\ List.length ds <= List.length new_calls <= 2 * List.length ds
  /\ List.length (find_requests new_calls) = List.length ds
  /\ List.length (create_requests new_calls) <= List.length ds.
Proof.
  induction 1 as [ | d [g e] ds ts Ht _ IH]; cbn zeta in *.
  - cbn. repeat split; lia.
  - cbn [map List.concat fst snd List.length filter].
    rewrite filter_app, find_requests_app, create_requests_app, !length_app.
    destruct (turn_counts Ht) as (Hf & Hg & Hq & Hc).
    destruct IH as (IH0 & IH1 & IH2 & IH3 & IH4).
    cbn [fst snd] in *. rewrite Hf, Hq.
    destruct (is_error e); cbn [List.length]; repeat split; lia.
Qed.

Lemma turns_query_each ds (turns : list (list Call * LogEntry)) :
  Forall2 (fun d t => turn d (fst t) (snd t)) ds turns ->
  find_requests (List.concat (map fst turns)) =
  map (fun d => existence_query (TemplateDefinition.metadata d)) ds.
Proof.
  induction 1 as [ | d [g e] ds ts Ht _ IH]; cbn [map List.concat fst].
  - reflexivity.
  - cbn [fst snd] in Ht. rewrite find_requests_app, IH.
    destruct Ht; reflexivity.
Qed.

End RegistrarRuns.

(** ** Runs with collaborators of any behaviour *)

Section GeneralRuns.
Context {E : Type} {C : General.Collaborators E}.

Local Open Scope nat_scope.

Local Notation said logger entries :=
  (match logger with Some _ => entries | None => [] end).

(** A guarded debug call that returns behaves as the call itself. *)
Lemma general_guarded_returns logger ctx m (handler : exn -> M E unit)
    (w : World E) :
  General.returns logger Debug ->
  try_catch (General.logger_debug logger ctx m) handler w
  = (inr tt, snd (General.logger_emit logger Debug ctx m w)).
Proof.
  intro Hdebug. unfold try_catch, General.logger_debug.
  pose proof (Hdebug ctx m w) as H.
  destruct (General.logger_emit logger Debug ctx m w) as [[e | []] w'];
    [discriminate | reflexivity].
Qed.

Lemma general_register_one_turn logger d (w : World E) :
  General.returns logger Debug ->
  General.returns logger Error ->
  exists group entry,
    turn d group entry
    /\ fst (General.register_one logger d w) = inr tt
    /\ calls (exec (General.register_one logger d) w) = calls w ++ group
    /\ log (exec (General.register_one logger d) w) = log w ++ said logger [entry].
Proof.
  intros Hdebug Herr.
  pose proof (general_register_one_returns d w Herr) as Hret.
  unfold exec. revert Hret. rewrite general_register_one_unfold. cbn zeta.
  destruct (General.findMany _ first_only (store w)) as [[e | [ | r rs]] s].
  - intro Hret. eexists _, _. split; [apply turn_query_failed | ].
    split; [exact Hret | ].
    unfold General.logger_error.
    rewrite general_logger_emit_calls, general_logger_emit_log.
    split; reflexivity.
  - destruct (General.createTemplate _ s) as [[e | created] s'].
    + intro Hret. eexists _, _. split; [apply turn_insert_failed | ].
      split; [exact Hret | ].
      unfold General.logger_error.
      rewrite general_logger_emit_calls, general_logger_emit_log.
      cbn [calls log]. rewrite <- app_assoc. split; reflexivity.
    + intro Hret. eexists _, _. split; [apply turn_registered | ].
      split; [exact Hret | ].
      rewrite (general_guarded_returns _ _ _ _ Hdebug). cbn [snd].
      rewrite general_logger_emit_calls, general_logger_emit_log.
      cbn [calls log]. rewrite <- app_assoc. split; reflexivity.
  - intro Hret. eexists _, _. split; [apply turn_skipped | ].
    split; [exact Hret | ].
    rewrite (general_guarded_returns _ _ _ _ Hdebug). cbn [snd].
    rewrite general_logger_emit_calls, general_logger_emit_log.
    split; reflexivity.
Qed.

Lemma general_register_loop_turns logger ds (w : World E) :
  General.returns logger Debug ->
  General.returns logger Error ->
  exists turns : list (list Call * LogEntry),
    Forall2 (fun d t => turn d (fst t) (snd t)) ds turns
    /\ fst (General.register_loop ds logger w) = inr tt
    /\ calls (exec (General.register_loop ds logger) w) =
       calls w ++ List.concat (map fst turns)
    /\ log (exec (General.register_loop ds logger) w) =
       log w ++ said logger (map snd turns).
Proof.
  intros Hdebug Herr. revert w. induction ds as [ | d ds IH]; intro w.
  - exists []. split; [constructor | ]. cbn.
    rewrite !app_nil_r. destruct logger; repeat split;
      now rewrite app_nil_r.
  - destruct (general_register_one_turn d w Hdebug Herr)
      as (g & e & Ht & Hr & Hc & Hl).
    unfold exec in *. rewrite general_register_loop_cons.
    destruct (General.register_one logger d w) as [[x | u] w1];
      [discriminate | ].
    cbn [snd] in Hc, Hl.
    destruct (IH w1) as (ts & Hts & Hrs & Hcs & Hls).
    exists ((g, e) :: ts). split; [constructor; assumption | ].
    split; [exact Hrs | ].
    rewrite Hcs, Hc, Hls, Hl. cbn [map List.concat fst snd].
    rewrite <- !app_assoc. split; [reflexivity | ].
    destruct logger; reflexivity.
Qed.

Lemma general_registerTemplates_turns templates logger (w : World E) s :
  General.construct logger (store w) = (inr tt, s) ->
  General.returns logger Debug ->
  General.returns logger Error ->
  exists turns : list (list Call * LogEntry),
    Forall2 (fun d t => turn d (fst t) (snd t)) templates turns
    /\ calls (exec (General.registerTemplates templates logger) w) =
       calls w ++ List.concat (map fst turns)
    /\ log (exec (General.registerTemplates templates logger) w) =
       log w ++ said logger (map snd turns).
Proof.
  intros Hnew Hdebug Herr. unfold exec.
  rewrite (general_registerTemplates_constructed templates logger w Hnew).
  destruct (general_register_loop_turns templates
              {| store := s; calls := calls w; log := log w |} Hdebug Herr)
    as (turns & Hturns & _ & Hc & Hl).
  exists turns. split; [exact Hturns | split; [exact Hc | exact Hl]].
Qed.

(** X1. When the repository is constructed and the calls of the logger
    return, a run is a sequence of turns, one per definition and in the
    order of the batch, each of one of four kinds: the query threw, a
    record was found, the insert threw, the insert succeeded.  The
    recorded calls are the calls of these turns, and the registrar hands
    the logger exactly one entry per turn: an error entry with the thrown
    value and the template's name and tags when a call threw, a debug
    entry otherwise.  Without a logger nothing is logged. *)
Theorem run_is_a_sequence_of_turns templates logger (w : World E) s :
  General.construct logger (store w) = (inr tt, s) ->
  General.returns logger Debug ->
  General.returns logger Error ->
  let w' := exec (General.registerTemplates templates logger) w in
  exists turns : list (list Call * LogEntry),
    Forall2 (fun d t => turn d (fst t) (snd t)) templates turns
    /\ calls w' = calls w ++ List.concat (map fst turns)
    /\ log w' = log w ++ said logger (map snd turns).
Proof.
  intros Hnew Hdebug Herr w'.
  now apply general_registerTemplates_turns with s.
Qed.

(** X2. When the repository is constructed and the calls of the logger
    return, a run hands the logger one entry per definition, and as many
    of them at error level as repository calls threw: every failure is
    logged as an error and nothing else is. *)
Theorem every_failure_is_logged templates (logger : Logger) (w : World E) s :
  General.construct (Some logger) (store w) = (inr tt, s) ->
  General.returns (Some logger) Debug ->
  General.returns (Some logger) Error ->
  let w' := exec (General.registerTemplates templates (Some logger)) w in
  exists new_calls new_entries,
    calls w' = calls w ++ new_calls
    /\ log w' = log w ++ new_entries
    /\ List.length new_entries = List.length templates
    /\ List.length (filter is_error new_entries)
       = List.length (filter call_failed new_calls).
Proof.
  intros Hnew Hdebug Herr w'.
  destruct (general_registerTemplates_turns templates w Hnew Hdebug Herr)
    as (turns & Hturns & Hcalls & Hlog).
  destruct (turns_counts Hturns) as (Hlen & Hfailed & _).
  exists (List.concat (map fst turns)), (map snd turns).
  split; [exact Hcalls | split; [exact Hlog | ]].
  rewrite length_map. split; [exact Hlen | now symmetry].
Qed.

Lemma attempts_counts ds groups :
  Forall2 attempt ds groups ->
  List.length (find_requests (List.concat groups)) = List.length ds
  /\ List.length (create_requests (List.concat groups)) <= List.length ds
  /\ List.length ds <= List.length (List.concat groups) <= 2 * List.length ds.
Proof.
  induction 1 as [ | d g ds gs Hg _ IH]; cbn [List.concat List.length].
  - cbn. lia.
  - rewrite find_requests_app, create_requests_app, !length_app.
    destruct Hg; cbn [find_requests create_requests List.length]; lia.
Qed.

(** X3. Whatever the repository and the logger do, a run makes at most
    one existence query per definition and at most one insert per query,
    so at most [2n] repository calls for a batch of [n] definitions and
    none for the empty batch; a run that returns normally has queried
    every definition. *)
Theorem calls_are_bounded_by_the_batch templates logger (w : World E) :
  let run := General.registerTemplates templates logger w in
  exists new_calls,
    calls (snd run) = calls w ++ new_calls
    /\ List.length (create_requests new_calls)
       <= List.length (find_requests new_calls)
       <= List.length templates
    /\ List.length new_calls <= 2 * List.length templates
    /\ (fst run = inr tt ->
        List.length (find_requests new_calls) = List.length templates
        /\ List.length templates <= List.length new_calls).
Proof.
  cbn zeta.
  destruct (General.construct logger (store w)) as [[e | []] s] eqn:Hnew.
  - rewrite (general_registerTemplates_not_constructed templates logger w Hnew).
    exists []. cbn. rewrite app_nil_r.
    split; [reflexivity | split; [lia | split; [lia | discriminate]]].
  - rewrite (general_registerTemplates_constructed templates logger w Hnew).
    set (v := {| store := s; calls := calls w; log := log w |}).
    destruct (general_register_loop_attempts logger templates v)
      as (done & groups & Hgroups & Hcalls & (rest & Hrest) & Hall).
    destruct (attempts_counts Hgroups) as (Hq & Hc & Hn).
    exists (List.concat groups).
    assert (Hlen : List.length done <= List.length templates).
    { rewrite Hrest, length_app. lia. }
    split; [exact Hcalls | split; [lia | split; [lia | ]]].
    intro Hret. rewrite <- (Hall Hret). lia.
Qed.

Local Notation opening :=
  {| level := Debug; context := CtxNone;
     msg := js "Registering auth module email templates" |}.
Local Notation closing :=
  {| level := Debug; context := CtxNone;
     msg := js "Auth module email templates registered" |}.
Local Notation announced logger w :=
  (snd (General.logger_debug logger CtxNone
          "Registering auth module email templates" w)).

Lemma general_registerAuthTemplates_unfold tags src logger (w : World E) :
  General.returns logger Debug ->
  General.registerAuthTemplates tags src logger w =
  match General.registerTemplates (AUTH_TEMPLATES tags src) logger
          (announced logger w)
  with
  | (inr _, w') =>
      General.logger_debug logger CtxNone
        "Auth module email templates registered" w'
  | (inl e, w') => (inl e, w')
  end.
Proof.
  intro Hdebug. unfold General.registerAuthTemplates, bind, General.logger_debug.
  pose proof (Hdebug CtxNone "Registering auth module email templates"%string w)
    as H.
  destruct (General.logger_emit logger Debug CtxNone _ w) as [[e | []] w'];
    [discriminate | reflexivity].
Qed.

(** X7. When the repository is constructed and the calls of the logger
    return, [registerAuthTemplates] returns normally whatever the store
    does; it queries the four auth tags, each alone and in the order
    verification, password reset, two-factor, welcome; and it hands the
    logger the opening message, one entry per template, and the closing
    message. *)
Theorem registerAuthTemplates_queries_the_four_tags
    tags src logger (w : World E) s :
  General.construct logger (store (announced logger w)) = (inr tt, s) ->
  General.returns logger Debug ->
  General.returns logger Error ->
  let w' := exec (General.registerAuthTemplates tags src logger) w in
  fst (General.registerAuthTemplates tags src logger w) = inr tt
  /\ exists new_calls entries,
       calls w' = calls w ++ new_calls
       /\ find_requests new_calls =
          [ {| filter_tags := [EmailTemplateTags.AUTH_EMAIL_VERIFY tags] |};
            {| filter_tags := [EmailTemplateTags.AUTH_PASSWORD_RESET tags] |};
            {| filter_tags := [EmailTemplateTags.AUTH_2FA tags] |};
            {| filter_tags := [EmailTemplateTags.AUTH_WELCOME tags] |} ]
       /\ List.length entries = 4
       /\ log w' = log w ++ said logger (opening :: entries ++ [closing]).
Proof.
  intros Hnew Hdebug Herr w'. unfold w', exec.
  rewrite (general_registerAuthTemplates_unfold tags src w Hdebug).
  rewrite (general_registerTemplates_constructed _ logger _ Hnew).
  set (v := {| store := s; calls := calls (announced logger w);
               log := log (announced logger w) |}).
  destruct (general_register_loop_turns (AUTH_TEMPLATES tags src) v Hdebug Herr)
    as (turns & Hturns & Hret & Hcalls & Hlog).
  destruct (turns_counts Hturns) as (Hlen & _).
  unfold exec in Hcalls, Hlog.
  destruct (General.register_loop (AUTH_TEMPLATES tags src) logger v)
    as [[e | u] v']; [discriminate | ].
  cbn [snd] in Hcalls, Hlog.
  split; [apply Hdebug | ].
  exists (List.concat (map fst turns)), (map snd turns).
  unfold General.logger_debug.
  rewrite general_logger_emit_calls, general_logger_emit_log.
  rewrite Hcalls, Hlog. cbn [v calls log].
  unfold General.logger_debug.
  rewrite general_logger_emit_calls, general_logger_emit_log.
  split; [reflexivity | split; [ | split]].
  - rewrite (turns_query_each Hturns). reflexivity.
  - rewrite length_map. exact Hlen.
  - destruct logger; cbn; [ | now rewrite !app_nil_r].
    rewrite <- !app_assoc. reflexivity.
Qed.

End GeneralRuns.

Section PersistentRuns.
Context {Db : Type} {Repo : EmailTemplateRepository Db}.
Variable records : Db -> list EmailTemplate.t.
Variable tags_match : list jsstring -> list jsstring -> bool.
Context {Contract : PersistenceContract Repo records tags_match}.

Local Open Scope nat_scope.

Local Notation stored_tags s := (map EmailTemplate.tags (records s)).
Local Notation plan := (to_insert tags_match).

Lemma present_stored_tags d (db : list EmailTemplate.t) :
  existsb (matching tags_match
             (existence_query (TemplateDefinition.metadata d))) db
  = existsb (fun t => tags_match t
                        (TemplateMetadata.tags (TemplateDefinition.metadata d)))
            (map EmailTemplate.tags db).
Proof. induction db as [ | r db IH]; cbn; [reflexivity | now rewrite IH]. Qed.

(** The loop inserts what [to_insert] computes from the stored tags. *)
Lemma register_loop_plan logger ds (w : World Db) :
  let w' := exec (register_loop ds logger) w in
  create_requests (calls w') =
  create_requests (calls w) ++ map newTemplateOf (plan (stored_tags (store w)) ds)
  /\ stored_tags (store w') =
     stored_tags (store w)
     ++ map (fun d => TemplateMetadata.tags (TemplateDefinition.metadata d))
            (plan (stored_tags (store w)) ds).
Proof.
  revert w. induction ds as [ | d ds IH]; intro w; cbn zeta.
  - cbn. now rewrite !app_nil_r.
  - rewrite exec_register_loop_cons. cbn [to_insert].
    rewrite <- present_stored_tags.
    destruct (IH (exec (register_one logger d) w)) as (IHc & IHs).
    destruct (existsb _ (records (store w))) eqn:Hp.
    + destruct (turn_present logger d w Hp) as (Hs & Hc & _).
      rewrite IHc, IHs, Hs, Hc. split; reflexivity.
    + destruct (turn_absent logger d w Hp) as ((r & Hfields & Hs) & Hc & _).
      assert (Htags : stored_tags (store (exec (register_one logger d) w))
                      = stored_tags (store w)
                        ++ [TemplateMetadata.tags (TemplateDefinition.metadata d)]).
      { rewrite Hs, map_app. cbn. unfold EmailTemplate.tags at 2.
        now rewrite Hfields. }
      rewrite IHc, IHs, Htags, Hc. cbn [map].
      rewrite <- !app_assoc. split; reflexivity.
Qed.

Lemma registerTemplates_plan templates logger (w : World Db) :
  let w' := exec (registerTemplates templates logger) w in
  create_requests (calls w') =
  create_requests (calls w)
  ++ map newTemplateOf (plan (stored_tags (store w)) templates)
  /\ stored_tags (store w') =
     stored_tags (store w)
     ++ map (fun d => TemplateMetadata.tags (TemplateDefinition.metadata d))
            (plan (stored_tags (store w)) templates).
Proof.
  cbn zeta.
  destruct (registerTemplates_opens templates logger w) as (s & Hs & Hrun).
  unfold exec at 1 2. rewrite Hrun.
  destruct (register_loop_plan logger templates
              {| store := s; calls := calls w; log := log w |}) as (Hc & Ht).
  cbn [store calls] in Hc, Ht. rewrite Hs in Hc, Ht.
  split; assumption.
Qed.



End PersistentRuns.

Section AuthTemplatesRuns.
Context {Db : Type} {Repo : EmailTemplateRepository Db}.

Local Open Scope nat_scope.

Local Notation said logger entries :=
  (match logger with Some _ => entries | None => [] end).
Local Notation opening :=
  {| level := Debug; context := CtxNone;
     msg := js "Registering auth module email templates" |}.
Local Notation closing :=
  {| level := Debug; context := CtxNone;
     msg := js "Auth module email templates registered" |}.
Local Notation announced logger w :=
  (snd (logger_debug logger CtxNone
          "Registering auth module email templates" w)).

Lemma registerAuthTemplates_unfold tags src logger (w : World Db) :
  registerAuthTemplates tags src logger w =
  match registerTemplates (AUTH_TEMPLATES tags src) logger (announced logger w)
  with
  | (inr _, w') =>
      logger_debug logger CtxNone "Auth module email templates registered" w'
  | (inl e, w') => (inl e, w')
  end.
Proof.
  unfold registerAuthTemplates, bind, logger_debug.
  destruct logger; reflexivity.
Qed.

(** X8. A constructor that throws is not caught by
    [registerAuthTemplates]: the exception propagates, no repository
    method is called, and the logger has received the opening message but
    not the closing one. *)
Theorem registerAuthTemplates_rethrows tags src logger (w : World Db) e s :
  construct (store w) = (inl e, s) ->
  registerAuthTemplates tags src logger w =
  (inl e, {| store := s;
             calls := calls w;
             log := log w ++ said logger [opening] |}).
Proof.
  intro Hnew. rewrite registerAuthTemplates_unfold.
  assert (Hnew' : construct (store (announced logger w)) = (inl e, s)).
  { unfold logger_debug. now rewrite logger_emit_store. }
  rewrite (registerTemplates_not_constructed _ logger _ Hnew').
  unfold logger_debug. rewrite logger_emit_calls, logger_emit_log.
  reflexivity.
Qed.

End AuthTemplatesRuns.

Section AuthTemplatesStored.
Context {Db : Type} {Repo : EmailTemplateRepository Db}.
Variable records : Db -> list EmailTemplate.t.
Variable tags_match : list jsstring -> list jsstring -> bool.
Context {Contract : PersistenceContract Repo records tags_match}.

(** The store matches on the tag set only. *)
Hypothesis matches_same_tag_set :
  forall stored queried,
    tags_match stored queried = true -> same_tag_set stored queried.

Local Notation stored_tags s := (map EmailTemplate.tags (records s)).
Local Notation tags_of d :=
  (TemplateMetadata.tags (TemplateDefinition.metadata d)).

Lemma distinct_tags_do_not_match (a b : jsstring) :
  a <> b -> tags_match [a] [b] = false.
Proof.
  intro Hab. destruct (tags_match [a] [b]) eqn:Hm; [ | reflexivity].
  apply matches_same_tag_set in Hm.
  destruct (proj1 (Hm a) (or_introl eq_refl)) as [Hb | []].
  congruence.
Qed.

Lemma to_insert_all_stored stored ds :
  Forall (fun d => In (tags_of d) stored) ds ->
  to_insert tags_match stored ds = [].
Proof.
  induction 1 as [ | d ds Hd _ IH]; cbn [to_insert]; [reflexivity | ].
  replace (existsb _ stored) with true; [exact IH | ].
  symmetry. apply existsb_exists. exists (tags_of d).
  split; [exact Hd | ].
  apply same_tag_set_matches. intro x. reflexivity.
Qed.

Lemma to_insert_AUTH_TEMPLATES tags src :
  NoDup [ EmailTemplateTags.AUTH_EMAIL_VERIFY tags;
          EmailTemplateTags.AUTH_PASSWORD_RESET tags;
          EmailTemplateTags.AUTH_2FA tags;
          EmailTemplateTags.AUTH_WELCOME tags ] ->
  to_insert tags_match [] (AUTH_TEMPLATES tags src) = AUTH_TEMPLATES tags src.
Proof.
  intro Hnodup.
  inversion Hnodup as [ | a l1 Ha H1]; subst.
  inversion H1 as [ | b l2 Hb H2]; subst.
  inversion H2 as [ | c l3 Hc _]; subst.
  cbn in Ha, Hb, Hc.
  unfold AUTH_TEMPLATES, auth_template.
  cbn [to_insert existsb app TemplateDefinition.metadata TemplateMetadata.tags].
  rewrite !distinct_tags_do_not_match by (intro; intuition congruence).
  reflexivity.
Qed.

Lemma registerAuthTemplates_as_registerTemplates tags src logger (w : World Db) :
  let w' := exec (registerAuthTemplates tags src logger) w in
  let v := exec (registerTemplates (AUTH_TEMPLATES tags src) logger)
                (snd (logger_debug logger CtxNone
                        "Registering auth module email templates" w)) in
  store w' = store v /\ calls w' = calls v.
Proof.
  cbn zeta.
  set (a := snd (logger_debug logger CtxNone
                   "Registering auth module email templates" w)).
  assert (H : exec (registerAuthTemplates tags src logger) w =
              snd (logger_debug logger CtxNone
                     "Auth module email templates registered"
                     (exec (registerTemplates (AUTH_TEMPLATES tags src) logger)
                           a))).
  { unfold exec. rewrite registerAuthTemplates_unfold. fold a.
    destruct (registerTemplates_opens (AUTH_TEMPLATES tags src) logger a)
      as (s & _ & Hrun).
    rewrite Hrun, register_loop_exec. reflexivity. }
  rewrite H. unfold logger_debug at 1 2.
  now rewrite logger_emit_store, logger_emit_calls.
Qed.


End AuthTemplatesStored.

(** * Further properties of the build script *)

Section BuildScriptFacts.
Local Open Scope N_scope.

Lemma trim_start_splits s :
  exists removed,
    s = removed ++ trim_start s
    /\ forallb is_trimmable removed = true
    /\ starts_clean (trim_start s) = true.
Proof.
  induction s as [ | c s (removed & Hs & Hr & Hc)].
  - exists []. repeat split.
  - cbn [trim_start]. destruct (is_trimmable c) eqn:Hw.
    + exists (c :: removed). cbn. rewrite Hw, Hr, <- Hs. repeat split.
      exact Hc.
    + exists []. cbn. rewrite Hw. repeat split.
Qed.

Lemma trim_start_clean s : starts_clean s = true -> trim_start s = s.
Proof.
  destruct s as [ | c s]; cbn; [reflexivity | ].
  now destruct (is_trimmable c).
Qed.

Lemma forallb_reversed {A} (f : A -> bool) l : forallb f (rev l) = forallb f l.
Proof.
  induction l as [ | a l IH]; cbn; [reflexivity | ].
  rewrite forallb_app, IH. cbn. rewrite andb_true_r. apply andb_comm.
Qed.

Lemma String_trim_splits s :
  exists before after,
    s = before ++ String_trim s ++ after
    /\ forallb is_trimmable before = true
    /\ forallb is_trimmable after = true
    /\ starts_clean (String_trim s) = true
    /\ ends_clean (String_trim s) = true.
Proof.
  unfold String_trim, ends_clean.
  destruct (trim_start_splits s) as (before & Hs & Hb & Hc).
  destruct (trim_start_splits (rev (trim_start s))) as (tail & Ht & Hw & Hu).
  set (u := trim_start (rev (trim_start s))) in *.
  assert (Hmid : trim_start s = rev u ++ rev tail).
  { rewrite <- rev_app_distr, <- Ht. symmetry. apply rev_involutive. }
  exists before, (rev tail).
  split; [now rewrite <- Hmid | ].
  split; [exact Hb | ].
  split; [now rewrite forallb_reversed | ].
  split; [ | now rewrite rev_involutive].
  rewrite Hmid in Hc. destruct (rev u); [reflexivity | exact Hc].
Qed.

Lemma String_trim_clean s :
  starts_clean s = true -> ends_clean s = true -> String_trim s = s.
Proof.
  intros Hs He. unfold String_trim.
  rewrite (trim_start_clean s Hs), (trim_start_clean (rev s) He).
  apply rev_involutive.
Qed.

Lemma unknown_is_clean :
  starts_clean unknown = true /\ ends_clean unknown = true.
Proof. split; reflexivity. Qed.

Lemma git_field_clean (exists_git : bool) (query : result jsstring) :
  let field := if exists_git
               then match query with
                    | inr out => String_trim out
                    | inl _ => unknown
                    end
               else unknown in
  starts_clean field = true /\ ends_clean field = true.
Proof.
  destruct exists_git; [ | apply unknown_is_clean].
  destruct query as [e | out]; [apply unknown_is_clean | ].
  destruct (String_trim_splits out) as (_ & _ & _ & _ & _ & Hs & He).
  split; assumption.
Qed.

(** X10. Whatever the platform answers, [getGitCommit] and
    [getGitBranch] return a string that neither starts nor ends with
    white space or a line terminator, ["unknown"] or trimmed output, and
    these are the commit and branch fields of the generated constants. *)
Theorem git_fields_are_trimmed p :
  exists commit branch,
    getGitCommit p = inr commit
    /\ getGitBranch p = inr branch
    /\ starts_clean commit = true
    /\ ends_clean commit = true
    /\ starts_clean branch = true
    /\ ends_clean branch = true
    /\ forall constants,
         generateBuildConstants p = inr constants ->
         GIT_COMMIT constants = commit /\ GIT_BRANCH constants = branch.
Proof.
  destruct (generateBuildConstants_value p)
    as (commit & branch & version & Hc & Hb & _ & Hg).
  exists commit, branch.
  split; [exact Hc | split; [exact Hb | ]].
  rewrite getGitCommit_value in Hc. rewrite getGitBranch_value in Hb.
  injection Hc as Hc. injection Hb as Hb.
  destruct (git_field_clean (existsSync p (js ".git"))
              (shell_text p (js "git rev-parse HEAD"))) as (H1 & H2).
  destruct (git_field_clean (existsSync p (js ".git"))
              (shell_text p (js "git rev-parse --abbrev-ref HEAD")))
    as (H3 & H4).
  cbv zeta in H1, H2, H3, H4. rewrite Hc in H1, H2. rewrite Hb in H3, H4.
  repeat (split; [assumption | ]).
  intros constants Hgen. rewrite Hg in Hgen.
  destruct (ToString version); [discriminate | ].
  injection Hgen as <-.
  split; reflexivity.
Qed.

Lemma trimmed_output out :
  exists before after,
    out = before ++ String_trim out ++ after
    /\ forallb is_trimmable before = true
    /\ forallb is_trimmable after = true
    /\ (forallb is_trimmable out = true -> String_trim out = []).
Proof.
  destruct (String_trim_splits out) as (before & after & Hs & Hb & Ha & Hc & _).
  exists before, after.
  split; [exact Hs | split; [exact Hb | split; [exact Ha | ]]].
  intro Hblank. rewrite Hs, !forallb_app in Hblank.
  destruct (String_trim out) as [ | c rest]; [reflexivity | ].
  cbn in Hc, Hblank. destruct (is_trimmable c); [discriminate | ].
  cbn in Hblank. now rewrite andb_false_r in Hblank.
Qed.

(** X11. When [.git] exists and a git query succeeds, [getGitCommit] and
    [getGitBranch] return its output with nothing but leading and
    trailing white space removed; in particular blank output gives the
    empty string, not ["unknown"]. *)
Theorem git_queries_keep_the_output p :
  existsSync p (js ".git") = true ->
  (forall out,
      shell_text p (js "git rev-parse HEAD") = inr out ->
      exists commit before after,
        getGitCommit p = inr commit
        /\ out = before ++ commit ++ after
        /\ forallb is_trimmable before = true
        /\ forallb is_trimmable after = true
        /\ (forallb is_trimmable out = true -> commit = []))
  /\ (forall out,
        shell_text p (js "git rev-parse --abbrev-ref HEAD") = inr out ->
        exists branch before after,
          getGitBranch p = inr branch
          /\ out = before ++ branch ++ after
          /\ forallb is_trimmable before = true
          /\ forallb is_trimmable after = true
          /\ (forallb is_trimmable out = true -> branch = [])).
Proof.
  intro Hgit. split; intros out Hout;
    destruct (trimmed_output out) as (before & after & Hs & Hb & Ha & He);
    exists (String_trim out), before, after.
  - rewrite getGitCommit_value, Hgit, Hout. repeat split; assumption.
  - rewrite getGitBranch_value, Hgit, Hout. repeat split; assumption.
Qed.

(** X12. [getPackageVersion] always returns, and what it returns is
    truthy: either ["0.0.0"] or the [version] property of the object the
    manifest parses to.  It never returns an empty string, [null] or
    [undefined]. *)
Theorem getPackageVersion_is_truthy p :
  exists version,
    getPackageVersion p = inr version
    /\ truthy version = true
    /\ (version = JString (js "0.0.0")
        \/ exists content properties,
             readFileSync p (path_join p (process_cwd p) (js "package.json"))
             = inr content
             /\ JSON_parse p content = inr (JObject properties)
             /\ own_property (js "version") properties = Some version).
Proof.
  unfold getPackageVersion, try_, and_then. cbv zeta.
  destruct (readFileSync p _) as [e | content] eqn:Hread;
    [eexists; repeat split; now left | ].
  destruct (JSON_parse p content) as [e | packageJson] eqn:Hparse;
    [eexists; repeat split; now left | ].
  destruct packageJson as [ | | b | f | s | l | properties]; cbn [get_version];
    try (eexists; repeat split; now left).
  destruct (own_property (js "version") properties) as [v | ] eqn:Hv;
    [ | eexists; repeat split; now left].
  destruct (truthy v) eqn:Ht; [ | eexists; repeat split; now left].
  exists v. split; [reflexivity | split; [exact Ht | ]].
  right. exists content, properties. repeat split; assumption.
Qed.

(** X13. Whenever the manifest is read and parsed, but what it parses to
    is not an object with a truthy [version] (it is [null], an array, a
    string, a number, or the version is empty, zero, [false] or [null]),
    [getPackageVersion] returns ["0.0.0"]. *)
Theorem falsy_version_yields_default p content value :
  readFileSync p (path_join p (process_cwd p) (js "package.json"))
  = inr content ->
  JSON_parse p content = inr value ->
  (forall properties version,
      value = JObject properties ->
      own_property (js "version") properties = Some version ->
      truthy version = false) ->
  getPackageVersion p = inr (JString (js "0.0.0")).
Proof.
  intros Hread Hparse Hfalsy.
  unfold getPackageVersion, try_, and_then. cbv zeta.
  rewrite Hread. cbv beta iota. rewrite Hparse. cbv beta iota.
  destruct value as [ | | b | f | s | l | properties]; cbn [get_version];
    try reflexivity.
  destruct (own_property (js "version") properties) as [v | ] eqn:Hv;
    [ | reflexivity].
  now rewrite (Hfalsy properties v eq_refl Hv).
Qed.

End BuildScriptFacts.

Section DefineArgumentsFacts.
Local Open Scope N_scope.

Local Notation printable := (forallb (fun c => 32 <=? c)).

Ltac split_comparisons :=
  repeat match goal with
    | |- context [?a =? ?b] => destruct (N.eqb_spec a b)
    | |- context [?a <=? ?b] => destruct (N.leb_spec a b)
    | |- context [?a <? ?b] => destruct (N.ltb_spec a b)
    end.

Lemma hex_digit_printable d : (32 <=? hex_digit d) = true.
Proof.
  unfold hex_digit. destruct (d <? 10); apply N.leb_le; lia.
Qed.

Lemma hex_digit_not_surrogate d :
  d < 16 ->
  is_leading_surrogate (hex_digit d) = false
  /\ is_trailing_surrogate (hex_digit d) = false.
Proof.
  intro H. unfold is_leading_surrogate, is_trailing_surrogate, hex_digit.
  assert (Hlow : (55296 <=? (if d <? 10 then 48 + d else 87 + d)) = false
                 /\ (56320 <=? (if d <? 10 then 48 + d else 87 + d)) = false).
  { destruct (d <? 10); split; apply N.leb_gt; lia. }
  destruct Hlow as (-> & ->). split; reflexivity.
Qed.

(** What [quote_code_unit] emits is printable and free of surrogates. *)
Lemma quote_code_unit_plain c :
  printable (quote_code_unit c) = true
  /\ forall t, well_formed_utf16 (quote_code_unit c ++ t) = well_formed_utf16 t.
Proof.
  unfold quote_code_unit.
  destruct (N.eqb_spec c 8); [split; reflexivity | ].
  destruct (N.eqb_spec c 9); [split; reflexivity | ].
  destruct (N.eqb_spec c 10); [split; reflexivity | ].
  destruct (N.eqb_spec c 12); [split; reflexivity | ].
  destruct (N.eqb_spec c 13); [split; reflexivity | ].
  destruct (N.eqb_spec c 34); [split; reflexivity | ].
  destruct (N.eqb_spec c 92); [split; reflexivity | ].
  destruct ((c <? 32) || is_leading_surrogate c || is_trailing_surrogate c)
    eqn:Hesc.
  - assert (c < 65536) as Hc.
    { unfold is_leading_surrogate, is_trailing_surrogate in Hesc.
      revert Hesc. split_comparisons; cbn; intro; try discriminate; lia. }
    destruct (@sixteen_digits c Hc) as (H3 & H2 & H1 & H0 & _).
    unfold UnicodeEscape. split.
    + cbn [forallb]. rewrite !hex_digit_printable. reflexivity.
    + intro t. cbn [app well_formed_utf16].
      change (is_leading_surrogate 92) with false.
      change (is_trailing_surrogate 92) with false.
      change (is_leading_surrogate 117) with false.
      change (is_trailing_surrogate 117) with false.
      cbv iota. cbn [negb andb].
      destruct (hex_digit_not_surrogate H3) as (-> & ->).
      destruct (hex_digit_not_surrogate H2) as (-> & ->).
      destruct (hex_digit_not_surrogate H1) as (-> & ->).
      destruct (hex_digit_not_surrogate H0) as (-> & ->).
      reflexivity.
  - apply orb_false_iff in Hesc. destruct Hesc as [Hesc Htrail].
    apply orb_false_iff in Hesc. destruct Hesc as [Hlow Hlead].
    split.
    + cbn [forallb]. rewrite andb_true_r.
      apply N.ltb_ge in Hlow. now apply N.leb_le.
    + intro t. cbn [app well_formed_utf16]. now rewrite Hlead, Htrail.
Qed.

Lemma surrogate_printable c :
  is_leading_surrogate c || is_trailing_surrogate c = true ->
  (32 <=? c) = true.
Proof.
  unfold is_leading_surrogate, is_trailing_surrogate.
  split_comparisons; cbn; intro; try discriminate; lia.
Qed.

Lemma quote_code_points_plain n :
  forall s,
    (List.length s <= n)%nat ->
    printable (quote_code_points s) = true
    /\ forall t, well_formed_utf16 (quote_code_points s ++ t)
                 = well_formed_utf16 t.
Proof.
  induction n as [ | n IH]; intros s Hlen.
  - destruct s; [split; reflexivity | cbn in Hlen; lia].
  - destruct s as [ | c [ | d s']].
    + split; reflexivity.
    + cbn [quote_code_points]. apply quote_code_unit_plain.
    + rewrite quote_code_points_two.
      destruct (is_leading_surrogate c && is_trailing_surrogate d) eqn:Hpair.
      * apply andb_true_iff in Hpair. destruct Hpair as [Hc Hd].
        destruct (IH s') as (Hp & Hw); [cbn in Hlen; lia | ].
        split.
        -- cbn [forallb]. rewrite Hp.
           rewrite (@surrogate_printable c) by (now rewrite Hc).
           rewrite (@surrogate_printable d) by (rewrite Hd; apply orb_true_r).
           reflexivity.
        -- intro t. cbn [app well_formed_utf16]. now rewrite Hc, Hd, Hw.
      * destruct (quote_code_unit_plain c) as (Hp1 & Hw1).
        destruct (IH (d :: s')) as (Hp2 & Hw2); [cbn in Hlen |- *; lia | ].
        split.
        -- now rewrite forallb_app, Hp1, Hp2.
        -- intro t. now rewrite <- app_assoc, Hw1, Hw2.
Qed.

Lemma JSON_stringify_plain value :
  printable (JSON_stringify value) = true
  /\ well_formed_utf16 (JSON_stringify value) = true.
Proof.
  unfold JSON_stringify, QuoteJSONString.
  destruct (@quote_code_points_plain (List.length value) value (le_n _))
    as (Hp & Hw).
  split.
  - cbn [forallb]. now rewrite forallb_app, Hp.
  - cbn [well_formed_utf16].
    change (is_leading_surrogate 34) with false.
    change (is_trailing_surrogate 34) with false.
    cbv iota. cbn [negb andb]. now rewrite Hw.
Qed.

Lemma assignment_plain key value :
  printable key = true ->
  (forall t, well_formed_utf16 (key ++ t) = well_formed_utf16 t) ->
  printable (key ++ js "=" ++ JSON_stringify value) = true
  /\ well_formed_utf16 (key ++ js "=" ++ JSON_stringify value) = true.
Proof.
  intros Hp Hw. destruct (JSON_stringify_plain value) as (Hpv & Hwv).
  split.
  - now rewrite !forallb_app, Hp, Hpv.
  - rewrite Hw. exact Hwv.
Qed.

(** X14. Whatever the constants hold, line breaks, control characters
    and lone surrogates included, every argument that
    [constantsToDefineArgs] produces is free of control characters and is
    well-formed UTF-16; there are twelve of them. *)
Theorem define_arguments_are_plain_text (constants : BuildConstants) :
  List.length (constantsToDefineArgs constants) = 12%nat
  /\ Forall (fun argument =>
               printable argument = true
               /\ well_formed_utf16 argument = true)
            (constantsToDefineArgs constants).
Proof.
  split; [reflexivity | ].
  unfold constantsToDefineArgs, Object_entries. cbn [fold_left app].
  repeat apply Forall_cons; try apply Forall_nil;
    first [ split; reflexivity
          | apply assignment_plain; [reflexivity | intro t; reflexivity] ].
Qed.

(** [buildBinary] never throws and reports whether the exit code was 0. *)
Lemma buildBinary_result
    (spawn : list jsstring -> result Spawned) (constants : BuildConstants) :
  exists success,
    buildBinary spawn constants = inr success
    /\ (success = true <->
        exists buildProcess,
          spawn (build_command constants) = inr buildProcess
          /\ exited buildProcess = 0%Z).
Proof.
  unfold buildBinary, try_, and_then.
  destruct (spawn (build_command constants)) as [e | buildProcess].
  - exists false. split; [reflexivity | ].
    split; [discriminate | intros (r & Hr & _); discriminate].
  - exists (exited buildProcess =? 0)%Z. split; [reflexivity | ].
    rewrite Z.eqb_eq. split.
    + intro H. exists buildProcess. split; [reflexivity | exact H].
    + intros (r & Hr & H). now injection Hr as <-.
Qed.

Lemma defines_of_flag assignment rest :
  defines_of (js "--define" :: assignment :: rest) =
  assignment :: defines_of rest.
Proof. reflexivity. Qed.

Lemma defines_of_other argument rest :
  jsstring_eqb argument (js "--define") = false ->
  defines_of (argument :: rest) = defines_of rest.
Proof. intro H. cbn [defines_of]. now rewrite H. Qed.

(** The defines of the command line, read off its [--define] flags. *)
Lemma build_command_defines (constants : BuildConstants) :
  firstn 2 (build_command constants) = [js "bun"; js "build"]
  /\ defines_of (build_command constants) =
     (js "process.env.NODE_ENV=" ++ JSON_stringify (js "production"))
     :: map (fun entry => fst entry ++ js "=" ++ JSON_stringify (snd entry))
            (Object_entries constants).
Proof.
  split; [reflexivity | ].
  unfold build_command, buildArgs, constantsToDefineArgs, Object_entries.
  cbn [fold_left app map fst snd].
  repeat first [ rewrite defines_of_flag
               | rewrite defines_of_other by reflexivity ].
  reflexivity.
Qed.

(** X15. [buildBinary] never throws.  It spawns one command, [bun build]
    with defines, in this order, for the production environment and the
    six build constants, each as [KEY=JSON] whatever the constants hold;
    it reports success exactly when that process delivers exit code 0,
    and failure when spawning or reading the process fails. *)
Theorem buildBinary_spawns_the_bundler_and_reports_its_exit_code
    (spawn : list jsstring -> result Spawned) (constants : BuildConstants) :
  let command := build_command constants in
  firstn 2 command = [js "bun"; js "build"]
  /\ defines_of command =
     (js "process.env.NODE_ENV=" ++ JSON_stringify (js "production"))
     :: map (fun entry => fst entry ++ js "=" ++ JSON_stringify (snd entry))
            (Object_entries constants)
  /\ exists success,
       buildBinary spawn constants = inr success
       /\ (success = true <->
           exists buildProcess,
             spawn command = inr buildProcess
             /\ exited buildProcess = 0%Z).
Proof.
  intro command.
  destruct (build_command_defines constants) as (Hhead & Hdefines).
  split; [exact Hhead | split; [exact Hdefines | ]].
  apply buildBinary_result.
Qed.

End DefineArgumentsFacts.

(** ** The further properties at concrete inputs *)

Lemma run_is_a_sequence_of_turns_witness :
  let C := ReturningLogger ScriptedStore in
  let w := fresh ([false; true; true], @nil EmailTemplate.t) in
  let batch := [verify_email; password_reset; welcome] in
  let logger := Some StructuredLogger in
  (@General.construct _ C logger (store w) = (inr tt, store w)
   /\ @General.returns _ C logger Debug
   /\ @General.returns _ C logger Error)
  /\ exists turns : list (list Call * LogEntry),
       Forall2 (fun d t => turn d (fst t) (snd t)) batch turns
       /\ calls (exec (@General.registerTemplates _ C batch logger) w) =
          calls w ++ List.concat (map fst turns)
       /\ log (exec (@General.registerTemplates _ C batch logger) w) =
          log w ++ map snd turns.
Proof.
  intros C w batch logger.
  assert (Hnew : @General.construct _ C logger (store w) = (inr tt, store w))
    by reflexivity.
  assert (Hdebug : @General.returns _ C logger Debug)
    by (intros ctx m v; reflexivity).
  assert (Herr : @General.returns _ C logger Error)
    by (intros ctx m v; reflexivity).
  split; [split; [exact Hnew | split; [exact Hdebug | exact Herr]] | ].
  exact (@run_is_a_sequence_of_turns _ C batch logger w (store w)
           Hnew Hdebug Herr).
Defined.

Example scripted_run_log :
  map (fun e => (level e, msg e))
    (log (exec (@registerTemplates _ ScriptedStore
                  [verify_email; password_reset; welcome]
                  (Some StructuredLogger))
               (fresh ([false; true; true], []))))
  = [ (Error, js "Failed to register email template");
      (Error, js "Failed to register email template");
      (Debug, js "Email template registered") ].
Proof. reflexivity. Qed.

Lemma every_failure_is_logged_witness :
  let C := ReturningLogger ScriptedStore in
  let w := fresh ([false; true; true], @nil EmailTemplate.t) in
  let batch := [verify_email; password_reset; welcome] in
  let logger := Some StructuredLogger in
  let w' := exec (@General.registerTemplates _ C batch logger) w in
  (@General.construct _ C logger (store w) = (inr tt, store w)
   /\ @General.returns _ C logger Debug
   /\ @General.returns _ C logger Error)
  /\ exists new_calls new_entries,
       calls w' = calls w ++ new_calls
       /\ log w' = log w ++ new_entries
       /\ List.length new_entries = 3%nat
       /\ List.length (filter is_error new_entries)
          = List.length (filter call_failed new_calls).
Proof.
  intros C w batch logger w'.
  assert (Hnew : @General.construct _ C logger (store w) = (inr tt, store w))
    by reflexivity.
  assert (Hdebug : @General.returns _ C logger Debug)
    by (intros ctx m v; reflexivity).
  assert (Herr : @General.returns _ C logger Error)
    by (intros ctx m v; reflexivity).
  split; [split; [exact Hnew | split; [exact Hdebug | exact Herr]] | ].
  exact (@every_failure_is_logged _ C batch StructuredLogger w (store w)
           Hnew Hdebug Herr).
Defined.

(** A run that is abandoned at its second definition: one insert, two
    queries, and the exception of the logger. *)
Example abandoned_run_calls :
  let C := FaultyCollaborators every_level match_contains in
  let run := @General.registerTemplates _ C
               [verify_email; password_reset; welcome] (Some StructuredLogger)
               (fresh (fixture [false; false; true] [false; true] [])) in
  fst run = inl (Thrown (js "logger failed"))
  /\ List.length (find_requests (calls (snd run))) = 2%nat
  /\ List.length (create_requests (calls (snd run))) = 1%nat
  /\ map is_error (log (snd run)) = [false; true].
Proof. repeat split. Qed.



Lemma registerAuthTemplates_queries_witness :
  let C := ReturningLogger ScriptedStore in
  let logger := Some StructuredLogger in
  let w := fresh ([true; false; true], @nil EmailTemplate.t) in
  let announced :=
    snd (@General.logger_debug _ C logger CtxNone
           "Registering auth module email templates" w) in
  let run := @General.registerAuthTemplates _ C sample_tags sample_sources
               logger in
  (@General.construct _ C logger (store announced) = (inr tt, store w)
   /\ @General.returns _ C logger Debug
   /\ @General.returns _ C logger Error)
  /\ fst (run w) = inr tt
  /\ exists new_calls,
       calls (exec run w) = calls w ++ new_calls
       /\ find_requests new_calls =
          [ {| filter_tags := [js "auth:email-verify"] |};
            {| filter_tags := [js "auth:password-reset"] |};
            {| filter_tags := [js "auth:2fa"] |};
            {| filter_tags := [js "auth:welcome"] |} ].
Proof.
  intros C logger w announced run.
  assert (Hnew : @General.construct _ C logger (store announced)
                 = (inr tt, store w)) by reflexivity.
  assert (Hdebug : @General.returns _ C logger Debug)
    by (intros ctx m v; reflexivity).
  assert (Herr : @General.returns _ C logger Error)
    by (intros ctx m v; reflexivity).
  split; [split; [exact Hnew | split; [exact Hdebug | exact Herr]] | ].
  destruct (@registerAuthTemplates_queries_the_four_tags _ C
              sample_tags sample_sources logger w (store w) Hnew Hdebug Herr)
    as (Hret & new_calls & entries & Hcalls & Hfind & _).
  split; [exact Hret | ].
  exists new_calls. split; [exact Hcalls | exact Hfind].
Defined.

Lemma registerAuthTemplates_rethrows_witness :
  let logger := Some StructuredLogger in
  @construct _ BrokenStore tt = (inl (Thrown (js "no database")), tt)
  /\ @registerAuthTemplates _ BrokenStore sample_tags sample_sources logger
       (fresh tt)
     = (inl (Thrown (js "no database")),
        {| store := tt;
           calls := [];
           log := [{| level := Debug; context := CtxNone;
                      msg := js "Registering auth module email templates" |}]
        |}).
Proof.
  intro logger.
  assert (Hnew : @construct _ BrokenStore (store (fresh tt))
                 = (inl (Thrown (js "no database")), tt)) by reflexivity.
  split; [exact Hnew | ].
  exact (@registerAuthTemplates_rethrows _ BrokenStore sample_tags
           sample_sources logger (fresh tt) _ tt Hnew).
Defined.


Lemma git_queries_keep_the_output_witness :
  let p := sample_platform true (inr ([32] ++ js "9fceb02" ++ [10]))
             (inr [32; 10]) (inl ENOENT) [] in
  (existsSync p (js ".git") = true
   /\ shell_text p (js "git rev-parse --abbrev-ref HEAD") = inr [32; 10]
   /\ forallb is_trimmable [32; 10] = true)
  /\ exists branch, getGitBranch p = inr branch /\ branch = [].
Proof.
  intro p.
  assert (Hgit : existsSync p (js ".git") = true) by reflexivity.
  assert (Hout : shell_text p (js "git rev-parse --abbrev-ref HEAD")
                 = inr [32; 10]) by reflexivity.
  assert (Hblank : forallb is_trimmable [32; 10] = true) by reflexivity.
  split; [split; [exact Hgit | split; [exact Hout | exact Hblank]] | ].
  destruct (proj2 (git_queries_keep_the_output p Hgit) [32; 10] Hout)
    as (branch & before & after & Hget & _ & _ & _ & Hempty).
  exists branch. split; [exact Hget | exact (Hempty Hblank)].
Defined.

Example git_commit_is_trimmed :
  getGitCommit (sample_platform true (inr ([32] ++ js "9fceb02" ++ [10]))
                  (inr [32; 10]) (inl ENOENT) [])
  = inr (js "9fceb02").
Proof. reflexivity. Qed.

Lemma falsy_version_yields_default_witness :
  let manifest := js "{ version }" in
  let parsed := JObject [(js "name", JString (js "api"));
                         (js "version", JString [])] in
  let p := sample_platform false (inl ShellError) (inl ShellError)
             (inr manifest) [(manifest, parsed)] in
  let q := sample_platform false (inl ShellError) (inl ShellError)
             (inr (js "null")) [(js "null", JNull)] in
  (readFileSync p (js "/srv/api/package.json") = inr manifest
   /\ JSON_parse p manifest = inr parsed
   /\ getPackageVersion p = inr (JString (js "0.0.0")))
  /\ (readFileSync q (js "/srv/api/package.json") = inr (js "null")
      /\ JSON_parse q (js "null") = inr JNull
      /\ getPackageVersion q = inr (JString (js "0.0.0"))).
Proof.
  intros manifest parsed p q.
  assert (Hread : readFileSync p (js "/srv/api/package.json") = inr manifest)
    by reflexivity.
  assert (Hparse : JSON_parse p manifest = inr parsed) by reflexivity.
  assert (Hread' : readFileSync q (js "/srv/api/package.json")
                   = inr (js "null")) by reflexivity.
  assert (Hparse' : JSON_parse q (js "null") = inr JNull) by reflexivity.
  split.
  - split; [exact Hread | split; [exact Hparse | ]].
    apply (@falsy_version_yields_default p manifest parsed Hread Hparse).
    intros properties version Heq Hv.
    injection Heq as <-. cbn in Hv. injection Hv as <-. reflexivity.
  - split; [exact Hread' | split; [exact Hparse' | ]].
    apply (@falsy_version_yields_default q (js "null") JNull Hread' Hparse').
    intros properties version Heq. discriminate Heq.
Defined.

Example failed_spawn_is_reported :
  buildBinary (fun _ => inl (Thrown (js "ENOENT"))) sample_constants = inr false
  /\ buildBinary (fun _ => inr {| stdout_text := []; stderr_text := js "error";
                                  exited := 1 |}) sample_constants = inr false
  /\ buildBinary (fun _ => inr {| stdout_text := []; stderr_text := [];
                                  exited := 0 |}) sample_constants = inr true.
Proof. repeat split. Qed.
